(** * Itinerary planner: request interpreter and budget post-processor

    A shallow embedding of the pure parts of [app.py] and
    [itinerary_planner.py], with the properties of their specification.

    - Text is Rocq's [string], a sequence of bytes: a Python [str] is read
      as its UTF-8 encoding.
    - [extract_duration] is modelled on the code points of the text, with
      the classes of Unicode 14, the version of Python 3.11: [\d] is any
      decimal digit, [\s] and [split()] any white space, and a letter of
      a pattern under [re.IGNORECASE] matches the few characters beyond
      ASCII that fold to it.
    - Elsewhere the character classes of the source ([\d], [\s],
      [[A-Za-z]], [str.lower], [str.isupper], [str.split]) are modelled on
      the ASCII range, where bytes and code points coincide; a byte above
      127 belongs to no class and is left alone by [lower].  A
      statement whose truth depends on this restriction is made for
      ASCII text.
    - Regular expressions are a small syntax with a backtracking matcher
      that tries alternatives in the order of Python's [re].
    - A [float] is a binary64 number of [SpecFloat]; the product with the
      exchange rate and the rounding of the format specifications are
      computed exactly on it.
    - A call that may raise returns an [exc].  Integers are unbounded;
      [int(str)] has the limit of 4300 digits that the interpreter sets
      by default. *)

From Stdlib Require Import String Ascii List Bool Arith ZArith Lia.
From Stdlib Require Import Floats.SpecFloat.
Import ListNotations.

Local Open Scope list_scope.
Local Open Scope string_scope.

(** ** Python's string methods *)

Module Py.

Definition code (c : ascii) : nat := nat_of_ascii c.

Definition in_range (lo hi : nat) (c : ascii) : bool :=
  Nat.leb lo (code c) && Nat.leb (code c) hi.

(** [str.isspace] on one character, the class behind [\s] and [split()]:
    tab, line feed, vertical tab, form feed, carriage return, the four
    separators 0x1c-0x1f and the space. *)
Definition is_space (c : ascii) : bool :=
  in_range 9 13 c || in_range 28 32 c.

Definition is_digit (c : ascii) : bool := in_range 48 57 c.
Definition is_upper (c : ascii) : bool := in_range 65 90 c.
Definition is_lower (c : ascii) : bool := in_range 97 122 c.
Definition is_alpha (c : ascii) : bool := is_upper c || is_lower c.

Definition lower_char (c : ascii) : ascii :=
  if is_upper c then ascii_of_nat (code c + 32) else c.

(** [s.lower()] *)
Fixpoint lower (s : string) : string :=
  match s with
  | EmptyString => EmptyString
  | String c t => String (lower_char c) (lower t)
  end.

Fixpoint drop (n : nat) (s : string) : string :=
  match n, s with
  | O, _ => s
  | S _, EmptyString => EmptyString
  | S k, String _ t => drop k t
  end.

Fixpoint take (n : nat) (s : string) : string :=
  match n, s with
  | O, _ => EmptyString
  | S _, EmptyString => EmptyString
  | S k, String c t => String c (take k t)
  end.

(** [s.startswith(p)] *)
Fixpoint startswith (p s : string) : bool :=
  match p, s with
  | EmptyString, _ => true
  | String _ _, EmptyString => false
  | String a p', String b s' => Ascii.eqb a b && startswith p' s'
  end.

(** [sub in s] *)
Fixpoint contains (sub s : string) : bool :=
  if startswith sub s then true
  else match s with
       | EmptyString => false
       | String _ t => contains sub t
       end.

(** The scan of [s.replace(old, new)] for a non-empty [old]: left to
    right, occurrences do not overlap.  [skip] counts the characters of
    the occurrence just replaced that are still to be passed over. *)
Fixpoint replace_from (old new s : string) (skip : nat) : string :=
  match s with
  | EmptyString => EmptyString
  | String c t =>
      match skip with
      | S k => replace_from old new t k
      | O =>
          if startswith old s
          then new ++ replace_from old new t (String.length old - 1)
          else String c (replace_from old new t 0)
      end
  end.

(** With an empty [old], Python puts [new] before every character and
    at the end. *)
Fixpoint intersperse (new s : string) : string :=
  match s with
  | EmptyString => new
  | String c t => new ++ String c (intersperse new t)
  end.

(** [s.replace(old, new)] *)
Definition replace (old new s : string) : string :=
  match old with
  | EmptyString => intersperse new s
  | String _ _ => replace_from old new s 0
  end.

(** The scan of [s.split(sep)] for a non-empty [sep]; the result always
    has a first field. *)
Fixpoint split_from (sep s : string) (skip : nat) : list string :=
  match s with
  | EmptyString => [EmptyString]
  | String c t =>
      match skip with
      | S k => split_from sep t k
      | O =>
          if startswith sep s
          then EmptyString :: split_from sep t (String.length sep - 1)
          else match split_from sep t 0 with
               | field :: fields => String c field :: fields
               | [] => [String c EmptyString]
               end
      end
  end.

(** [s.split()]: the maximal runs of non-space characters. *)
Fixpoint split_ws (s : string) : list string :=
  match s with
  | EmptyString => []
  | String c t =>
      if is_space c then split_ws t
      else match t with
           | EmptyString => [String c EmptyString]
           | String d _ =>
               if is_space d then String c EmptyString :: split_ws t
               else match split_ws t with
                    | w :: ws => String c w :: ws
                    | [] => [String c EmptyString]
                    end
           end
  end.

Fixpoint lstrip (s : string) : string :=
  match s with
  | EmptyString => EmptyString
  | String c t => if is_space c then lstrip t else s
  end.

Fixpoint rstrip (s : string) : string :=
  match s with
  | EmptyString => EmptyString
  | String c t =>
      match rstrip t with
      | EmptyString => if is_space c then EmptyString else String c EmptyString
      | t' => String c t'
      end
  end.

(** [s.strip()] *)
Definition strip (s : string) : string := rstrip (lstrip s).

(** The line feed, ["\n"]. *)
Definition nl : string := String (ascii_of_nat 10) EmptyString.

End Py.

(** ** Exceptions *)

(** A Python call either returns a value or raises; the payload of
    [Raise] is [str(e)]. *)
Inductive exc (A : Type) : Type :=
| Ok (a : A)
| Raise (msg : string).
Arguments Ok {A} a.
Arguments Raise {A} msg.

Definition bind {A B : Type} (m : exc A) (f : A -> exc B) : exc B :=
  match m with
  | Ok a => f a
  | Raise e => Raise e
  end.

Notation "x <- m ;; k" := (bind m (fun x => k))
  (at level 61, m at next level, right associativity).

(** [l[i]], which raises IndexError past the end. *)
Definition item {A : Type} (l : list A) (i : nat) : exc A :=
  match nth_error l i with
  | Some a => Ok a
  | None => Raise "list index out of range"
  end.

(** [l[-1]] *)
Definition last_item {A : Type} (l : list A) : exc A :=
  match rev l with
  | a :: _ => Ok a
  | [] => Raise "list index out of range"
  end.

(** [s.split(sep)], which raises ValueError on an empty separator. *)
Definition split (sep s : string) : exc (list string) :=
  match sep with
  | EmptyString => Raise "empty separator"
  | String _ _ => Ok (Py.split_from sep s 0)
  end.

(** ** The fragment of [re] the source uses *)

Module Re.

(** Regular expressions as the patterns of the source need them: the
    repetition [+] is only ever applied to one character class. *)
Inductive regex : Type :=
| Eps
| Cls (p : ascii -> bool)
| Cat (r1 r2 : regex)
| Opt (r : regex)
| Plus (p : ascii -> bool)
| Eos.

Definition chr (c : ascii) : regex := Cls (Ascii.eqb c).

(** A literal character under [re.IGNORECASE]. *)
Definition chr_i (c : ascii) : regex :=
  Cls (fun x => Ascii.eqb (Py.lower_char x) (Py.lower_char c)).

Fixpoint lit_i (s : string) : regex :=
  match s with
  | EmptyString => Eps
  | String c t => Cat (chr_i c) (lit_i t)
  end.

(** [$] without MULTILINE: the end of the text, or just before a line
    feed that ends the text. *)
Definition at_end (s : string) : bool :=
  match s with
  | EmptyString => true
  | String c EmptyString => Ascii.eqb c (ascii_of_nat 10)
  | _ => false
  end.

(** The greedy tail of [p+]: take as many characters of the class as
    there are, and give them back one at a time while the rest of the
    pattern, the continuation [k], fails. *)
Fixpoint star {A : Type} (p : ascii -> bool) (s : string)
    (k : string -> option A) : option A :=
  match s with
  | EmptyString => k EmptyString
  | String c t =>
      if p c
      then match star p t k with
           | Some x => Some x
           | None => k s
           end
      else k s
  end.

(** Backtracking matcher: [run r s k] matches [r] at the start of [s] and
    hands what is left of [s] to [k]; alternatives are tried in the
    order of the [re] module (greedy first). *)
Fixpoint run {A : Type} (r : regex) (s : string)
    (k : string -> option A) : option A :=
  match r with
  | Eps => k s
  | Cls p =>
      match s with
      | String c t => if p c then k t else None
      | EmptyString => None
      end
  | Cat r1 r2 => run r1 s (fun s' => run r2 s' k)
  | Opt r' =>
      match run r' s k with
      | Some x => Some x
      | None => k s
      end
  | Plus p =>
      match s with
      | String c t => if p c then star p t k else None
      | EmptyString => None
      end
  | Eos => if at_end s then k s else None
  end.

(** A pattern [pre(grp)post] with its one capturing group. *)
Record pattern : Type := { pre : regex; grp : regex; post : regex }.

(** A match object: [group(0)], [group(1)] and the text after the
    match. *)
Record rmatch : Type :=
  { group0 : string; group1 : string; rest : string }.

Definition consumed (s s' : string) : string :=
  Py.take (String.length s - String.length s') s.

(** [re.match] at the start of [s]. *)
Definition match_at (pat : pattern) (s : string) : option rmatch :=
  run (pre pat) s (fun s1 =>
  run (grp pat) s1 (fun s2 =>
  run (post pat) s2 (fun s3 =>
    Some {| group0 := consumed s s3; group1 := consumed s1 s2; rest := s3 |}))).

(** [re.search]: the leftmost position at which the pattern matches. *)
Fixpoint search (pat : pattern) (s : string) : option rmatch :=
  match match_at pat s with
  | Some m => Some m
  | None =>
      match s with
      | EmptyString => None
      | String _ t => search pat t
      end
  end.

(** [re.findall] for a pattern with one group: the captures of the
    successive non-overlapping matches.  [skip] counts the characters of
    the last match still to be passed over. *)
Fixpoint findall_from (pat : pattern) (s : string) (skip : nat) : list string :=
  match s with
  | EmptyString =>
      match match_at pat s with
      | Some m => [group1 m]
      | None => []
      end
  | String _ t =>
      match skip with
      | S k => findall_from pat t k
      | O =>
          match match_at pat s with
          | Some m => group1 m :: findall_from pat t (String.length (group0 m) - 1)
          | None => findall_from pat t 0
          end
      end
  end.

Definition findall (pat : pattern) (s : string) : list string :=
  findall_from pat s 0.

(** [re.sub(pat, repl, s)] for a replacement without group references. *)
Fixpoint sub_from (pat : pattern) (repl s : string) (skip : nat) : string :=
  match s with
  | EmptyString =>
      match match_at pat s with
      | Some _ => repl
      | None => EmptyString
      end
  | String c t =>
      match skip with
      | S k => sub_from pat repl t k
      | O =>
          match match_at pat s with
          | Some m =>
              match group0 m with
              | EmptyString => repl ++ String c (sub_from pat repl t 0)
              | String _ g => repl ++ sub_from pat repl t (String.length g)
              end
          | None => String c (sub_from pat repl t 0)
          end
      end
  end.

Definition sub (pat : pattern) (repl s : string) : string :=
  sub_from pat repl s 0.

(** The words a regular expression denotes, to state what a match
    looks like. [Eos] consumes nothing. *)
Fixpoint all_in (p : ascii -> bool) (w : string) : bool :=
  match w with
  | EmptyString => true
  | String c t => p c && all_in p t
  end.

Fixpoint lang (r : regex) (w : string) : Prop :=
  match r with
  | Eps => w = EmptyString
  | Cls p => exists c, w = String c EmptyString /\ p c = true
  | Cat r1 r2 => exists u v, w = u ++ v /\ lang r1 u /\ lang r2 v
  | Opt r' => w = EmptyString \/ lang r' w
  | Plus p => w <> EmptyString /\ all_in p w = true
  | Eos => w = EmptyString
  end.

End Re.

(** ** Python's [float] *)

Module PyFloat.

(** binary64 *)
Definition float : Type := spec_float.
Definition prec : Z := 53.
Definition emax : Z := 1024.

(** The double nearest to [n / 10^k], as [float] and the parser of
    float literals produce it for the decimal numeral of digits [n] with
    [k] digits after the point. *)
Definition of_decimal (n : Z) (k : nat) : float :=
  match n with
  | Zpos m =>
      SFdiv prec emax (S754_finite false m 0)
                      (S754_finite false (Z.to_pos (10 ^ Z.of_nat k)) 0)
  | _ => S754_zero false
  end.

Definition digit_value (c : ascii) : Z := Z.of_nat (Py.code c - 48).

(** The number that a string of ASCII digits writes. *)
Definition int_of_digits (s : string) : Z :=
  fold_left (fun acc c => (acc * 10 + digit_value c)%Z)
            (list_ascii_of_string s) 0%Z.

Definition numeral (s : string) : bool :=
  negb (String.eqb s EmptyString) && Re.all_in Py.is_digit s.

(** [float(s)] on the numerals the budget pattern leaves once the commas
    are gone, [digits] or [digits.digits]; [None] stands for ValueError.
    Python's [float] accepts more shapes (signs, exponents, [inf]); the
    pattern produces none of them. *)
Definition parse (s : string) : option float :=
  match Py.split_from "." s 0 with
  | [i] => if numeral i then Some (of_decimal (int_of_digits i) 0) else None
  | [i; f] =>
      if numeral i && numeral f
      then Some (of_decimal (int_of_digits (i ++ f)) (String.length f))
      else None
  | _ => None
  end.

Definition mul (x y : float) : float := SFmul prec emax x y.

Definition round_half_even (num den : Z) : Z :=
  let q := (num / den)%Z in
  match (2 * (num mod den) ?= den)%Z with
  | Lt => q
  | Gt => (q + 1)%Z
  | Eq => if Z.even q then q else (q + 1)%Z
  end.

(** The magnitude of a finite [x] times [10^d], rounded to the nearest
    integer (ties to even) from the exact binary value. *)
Definition scaled (m : positive) (e : Z) (d : nat) : Z :=
  let p := (10 ^ Z.of_nat d)%Z in
  if (0 <=? e)%Z then (Zpos m * 2 ^ e * p)%Z
  else round_half_even (Zpos m * p) (2 ^ (- e)).

Definition digit_char (d : Z) : ascii := ascii_of_nat (48 + Z.to_nat d).

Fixpoint digits_from (fuel : nat) (n : Z) (acc : string) : string :=
  match fuel with
  | O => acc
  | S f =>
      let acc' := String (digit_char (n mod 10)) acc in
      if (n / 10 =? 0)%Z then acc' else digits_from f (n / 10)%Z acc'
  end.

(** Decimal digits of a natural number; a number has no more decimal
    digits than binary ones. *)
Definition digits (n : Z) : string :=
  digits_from (S (Z.to_nat (Z.log2 n))) n EmptyString.

(** The [,] option of the format mini-language. *)
Fixpoint group_thousands (s : string) : string :=
  match s with
  | EmptyString => EmptyString
  | String c t =>
      if Nat.eqb (String.length t mod 3) 0 && negb (Nat.eqb (String.length t) 0)
      then String c ("," ++ group_thousands t)
      else String c (group_thousands t)
  end.

Fixpoint zeros (n : nat) : string :=
  match n with
  | O => EmptyString
  | S k => String "0" (zeros k)
  end.

Definition fraction (n : Z) (d : nat) : string :=
  match d with
  | O => EmptyString
  | S _ =>
      let f := digits n in
      "." ++ zeros (d - String.length f) ++ f
  end.

Definition sign (s : bool) : string := if s then "-" else "".

Definition fixed (s : bool) (n : Z) (d : nat) : string :=
  let p := (10 ^ Z.of_nat d)%Z in
  sign s ++ group_thousands (digits (n / p)) ++ fraction (n mod p) d.

(** [f"{x:,.df}"] *)
Definition format (d : nat) (x : float) : string :=
  match x with
  | S754_nan => "nan"
  | S754_infinity s => sign s ++ "inf"
  | S754_zero s => fixed s 0 d
  | S754_finite s m e => fixed s (scaled m e d) d
  end.

End PyFloat.

(** ** app.py *)

(** The codes offered by the currency selector; both dictionaries are
    total on them. *)
Inductive currency : Type := USD | EUR | GBP | JPY | INR | AUD | CAD.

Definition currency_eqb (a b : currency) : bool :=
  match a, b with
  | USD, USD | EUR, EUR | GBP, GBP | JPY, JPY
  | INR, INR | AUD, AUD | CAD, CAD => true
  | _, _ => false
  end.

(** [exchange_rates[c]], each the float of its literal. *)
Definition exchange_rates (c : currency) : PyFloat.float :=
  match c with
  | USD => PyFloat.of_decimal 10 1
  | EUR => PyFloat.of_decimal 91 2
  | GBP => PyFloat.of_decimal 78 2
  | JPY => PyFloat.of_decimal 15123 2
  | INR => PyFloat.of_decimal 8342 2
  | AUD => PyFloat.of_decimal 149 2
  | CAD => PyFloat.of_decimal 135 2
  end.

(** [currency_symbols[c]] *)
Definition currency_symbols (c : currency) : string :=
  match c with
  | USD => "$"
  | EUR => "€"
  | GBP => "£"
  | JPY => "¥"
  | INR => "₹"
  | AUD => "A$"
  | CAD => "C$"
  end.

(** [convert_currency(amount_usd, target_currency)] *)
Definition convert_currency (amount_usd : PyFloat.float)
    (target_currency : currency) : string :=
  if currency_eqb target_currency USD
  then currency_symbols target_currency ++ PyFloat.format 2 amount_usd
  else
    let converted := PyFloat.mul amount_usd (exchange_rates target_currency) in
    if currency_eqb target_currency JPY || currency_eqb target_currency INR
    then currency_symbols target_currency ++ PyFloat.format 0 converted
    else currency_symbols target_currency ++ PyFloat.format 2 converted.

(** [remove_asterisks(text)] *)
Definition remove_asterisks (text : string) : string :=
  Py.replace "**" "" text.

(** The test of the scan for the budget heading:
    ["budget" in line.lower() and "#" in line]. *)
Definition budget_heading (line : string) : bool :=
  Py.contains "budget" (Py.lower line) && Py.contains "#" line.

(** The inner [while]: the lines after the heading, up to the first one
    that starts with [#]. *)
Fixpoint section_body (lines : list string) : string :=
  match lines with
  | [] => EmptyString
  | l :: rest =>
      if Py.startswith "#" l then EmptyString
      else l ++ Py.nl ++ section_body rest
  end.

(** The [for] loop over the lines, left by [break] at the first heading:
    the values of [budget_found] and [budget_section] after it. *)
Fixpoint locate_budget (lines : list string) : bool * string :=
  match lines with
  | [] => (false, EmptyString)
  | line :: rest =>
      if budget_heading line
      then (true, line ++ Py.nl ++ section_body rest)
      else locate_budget rest
  end.

(** [r'\$(\d+(?:,\d+)?(?:\.\d+)?)'] *)
Definition dollar_pattern : Re.pattern :=
  {| Re.pre := Re.chr "$";
     Re.grp :=
       Re.Cat (Re.Plus Py.is_digit)
         (Re.Cat (Re.Opt (Re.Cat (Re.chr ",") (Re.Plus Py.is_digit)))
                 (Re.Opt (Re.Cat (Re.chr ".") (Re.Plus Py.is_digit))));
     Re.post := Re.Eps |}.

(** One turn of the loop over [dollar_amounts]. *)
Definition annotate_amount (preferred_currency : currency)
    (enhanced_budget amount_str : string) : string :=
  let clean_amount := Py.replace "," "" amount_str in
  match PyFloat.parse clean_amount with
  | Some amount_usd =>
      let converted := convert_currency amount_usd preferred_currency in
      Py.replace ("$" ++ amount_str)
                 ("$" ++ amount_str ++ " (" ++ converted ++ ")")
                 enhanced_budget
  | None => enhanced_budget
  end.

(** The currency annotation of a budget section: the body of the branch
    [budget_found and preferred_currency != "USD"]. *)
Definition enhanced_budget (budget_section : string)
    (preferred_currency : currency) : string :=
  let dollar_amounts := Re.findall dollar_pattern budget_section in
  fold_left (annotate_amount preferred_currency) dollar_amounts budget_section.

(** [generate_budget_section(itinerary, preferred_currency)] *)
Definition generate_budget_section (itinerary : string)
    (preferred_currency : currency) : string :=
  let lines := Py.split_from Py.nl itinerary 0 in
  let '(budget_found, budget_section) := locate_budget lines in
  let budget_section := remove_asterisks budget_section in
  if budget_found && negb (currency_eqb preferred_currency USD)
  then enhanced_budget budget_section preferred_currency
  else budget_section.

(** ** itinerary_planner.py *)

Definition travel_verbs : list string :=
  ["visit"; "travel to"; "go to"; "explore"; "see";
   "vacation in"; "holiday in"; "trip to"].

(** [[A-Za-z\s,]] *)
Definition destination_char (c : ascii) : bool :=
  Py.is_alpha c || Py.is_space c || Ascii.eqb c ",".

(** [f"{verb}\\s+([A-Za-z\\s,]+)"] under [re.IGNORECASE] *)
Definition verb_pattern (verb : string) : Re.pattern :=
  {| Re.pre := Re.Cat (Re.lit_i verb) (Re.Plus Py.is_space);
     Re.grp := Re.Plus destination_char;
     Re.post := Re.Eps |}.

(** [[,.!?]] *)
Definition punctuation (c : ascii) : bool :=
  Ascii.eqb c "," || Ascii.eqb c "." || Ascii.eqb c "!" || Ascii.eqb c "?".

(** [r'[,.!?]+$'], which has no group. *)
Definition trailing_punctuation : Re.pattern :=
  {| Re.pre := Re.Eps;
     Re.grp := Re.Eps;
     Re.post := Re.Cat (Re.Plus punctuation) Re.Eos |}.

(** The clean-up of one capture. *)
Definition clean_destination (m : string) : string :=
  Re.sub trailing_punctuation "" (Py.strip m).

(** [dest and len(dest) > 2] *)
Definition long_enough (dest : string) : bool :=
  negb (String.eqb dest EmptyString) && Nat.ltb 2 (String.length dest).

(** What one travel verb appends to [destinations]. *)
Definition verb_destinations (text verb : string) : list string :=
  filter long_enough
    (map clean_destination (Re.findall (verb_pattern verb) text)).

(** [destinations] after the loop over [travel_verbs]. *)
Definition primary_destinations (text : string) : list string :=
  flat_map (verb_destinations text) travel_verbs.

Definition stoplist : list string :=
  ["plan"; "trip"; "day"; "week"; "itinerary"].

Definition mem (x : string) (l : list string) : bool :=
  existsb (String.eqb x) l.

(** [word[0]] *)
Definition first_char (word : string) : exc ascii :=
  match word with
  | String c _ => Ok c
  | EmptyString => Raise "string index out of range"
  end.

(** The loop over the words of the text, used when no verb matched. *)
Fixpoint capitalised_words (words : list string) : exc (list string) :=
  match words with
  | [] => Ok []
  | word :: rest =>
      c <- first_char word ;;
      found <- capitalised_words rest ;;
      Ok (if Py.is_upper c && Nat.ltb 3 (String.length word)
             && negb (mem (Py.lower word) stoplist)
          then word :: found else found)
  end.

(** One turn of the loop that removes duplicates. *)
Definition unique_step (unique_destinations : list string) (dest : string)
    : list string :=
  if mem dest unique_destinations then unique_destinations
  else (unique_destinations ++ [dest])%list.

(** [unique_destinations] after the loop. *)
Definition unique (destinations : list string) : list string :=
  fold_left unique_step destinations [].

(** [extract_destinations(text)] *)
Definition extract_destinations (text : string) : exc (list string) :=
  destinations <-
    match primary_destinations text with
    | [] => capitalised_words (Py.split_ws text)
    | found => Ok found
    end ;;
  Ok (unique destinations).

(** ** Unicode text *)

Module Uni.

(** A text as Python has it, its code points in their order. *)
Definition text : Type := list N.

Definition replacement : N := 65533.

(** The code points of a UTF-8 string; [need] continuation bytes are
    still due for the code point begun in [acc].  A byte out of place
    gives U+FFFD; no Python text is encoded with one. *)
Fixpoint decode_from (s : string) (need : nat) (acc : N) : text :=
  match s with
  | EmptyString =>
      match need with
      | O => []
      | S _ => [replacement]
      end
  | String b t =>
      let v := N_of_ascii b in
      let start :=
        if (v <? 128)%N then v :: decode_from t 0 0
        else if (v <? 192)%N then replacement :: decode_from t 0 0
        else if (v <? 224)%N then decode_from t 1 (v - 192)
        else if (v <? 240)%N then decode_from t 2 (v - 224)
        else if (v <? 248)%N then decode_from t 3 (v - 240)
        else replacement :: decode_from t 0 0 in
      match need with
      | O => start
      | S n =>
          if (128 <=? v)%N && (v <? 192)%N
          then let acc' := (acc * 64 + (v - 128))%N in
               match n with
               | O => acc' :: decode_from t 0 0
               | S _ => decode_from t n acc'
               end
          else replacement :: start
      end
  end.

Definition decode (s : string) : text := decode_from s 0 0.

(** The digit zero of every set of decimal digits of Unicode 14, the
    version of Python 3.11; the nine code points after each are its
    digits one to nine. *)
Definition decimal_zeros : list N :=
  [48; 1632; 1776; 1984; 2406; 2534; 2662; 2790; 2918; 3046; 3174; 3302;
   3430; 3558; 3664; 3792; 3872; 4160; 4240; 6112; 6160; 6470; 6608;
   6784; 6800; 6992; 7088; 7232; 7248; 42528; 43216; 43264; 43472;
   43504; 43600; 44016; 65296; 66720; 68912; 69734; 69872; 69942; 70096;
   70384; 70736; 70864; 71248; 71360; 71472; 71904; 72016; 72784; 73040;
   73120; 92768; 92864; 93008; 120782; 120792; 120802; 120812; 120822;
   123200; 123632; 125264; 130032]%N.

(** The value of a decimal digit, which [int] reads. *)
Definition decimal_value (c : N) : option N :=
  match find (fun z => (z <=? c)%N && (c <=? z + 9)%N) decimal_zeros with
  | Some z => Some (c - z)%N
  | None => None
  end.

(** [\d] *)
Definition is_decimal (c : N) : bool :=
  match decimal_value c with
  | Some _ => true
  | None => false
  end.

(** The white space of [str.isspace], which [\s] and [split()] use. *)
Definition spaces : list N :=
  [9; 10; 11; 12; 13; 28; 29; 30; 31; 32; 133; 160; 5760; 8192; 8193; 8194;
   8195; 8196; 8197; 8198; 8199; 8200; 8201; 8202; 8232; 8233; 8239; 8287;
   12288]%N.

(** [\s] *)
Definition is_space (c : N) : bool := existsb (N.eqb c) spaces.

Definition fold_ascii (c : N) : N :=
  if (65 <=? c)%N && (c <=? 90)%N then (c + 32)%N else c.

(** The characters that an ASCII character [l] of a pattern matches
    under [re.IGNORECASE]: itself in both cases and, for i, s and k, the
    dotted capital and dotless small i, the long s and the Kelvin
    sign. *)
Definition variants (l : N) : list N :=
  let f := fold_ascii l in
  (f :: (if (97 <=? f)%N && (f <=? 122)%N then [(f - 32)%N] else []))
  ++ (if (f =? 105)%N then [304; 305]
      else if (f =? 115)%N then [383]
      else if (f =? 107)%N then [8490]
      else [])%N.

Definition matches_i (l c : N) : bool := existsb (N.eqb c) (variants l).

(** [str.lower] on one character: exact on ASCII and on the four other
    characters that an ASCII letter matches; any other character is
    lowered by Python to characters outside ASCII, one for one, and is
    left as it is here. *)
Definition lower_char (c : N) : text :=
  if (65 <=? c)%N && (c <=? 90)%N then [(c + 32)%N]
  else if (c =? 304)%N then [105; 775]%N
  else if (c =? 8490)%N then [107]%N
  else [c].

Definition lower (s : text) : text := flat_map lower_char s.

Fixpoint startswith (p s : text) : bool :=
  match p, s with
  | [], _ => true
  | _ :: _, [] => false
  | a :: p', b :: s' => (a =? b)%N && startswith p' s'
  end.

(** [sub in s] *)
Fixpoint contains (sub s : text) : bool :=
  if startswith sub s then true
  else match s with
       | [] => false
       | _ :: t => contains sub t
       end.

(** [s.split()] *)
Fixpoint split_ws (s : text) : list text :=
  match s with
  | [] => []
  | c :: t =>
      if is_space c then split_ws t
      else match t with
           | [] => [[c]]
           | d :: _ =>
               if is_space d then [c] :: split_ws t
               else match split_ws t with
                    | w :: ws => (c :: w) :: ws
                    | [] => [[c]]
                    end
           end
  end.

Definition digit_of (c : N) : Z :=
  match decimal_value c with
  | Some d => Z.of_N d
  | None => 0%Z
  end.

(** The number that a run of decimal digits writes. *)
Definition value (digits : text) : Z :=
  fold_left (fun acc c => (acc * 10 + digit_of c)%Z) digits 0%Z.

(** [int(s)] on a run of decimal digits, with the limit on their number
    that the interpreter sets (4300 unless configured otherwise). *)
Definition int (digits : text) : exc Z :=
  if Nat.ltb 4300 (List.length digits)
  then Raise ("Exceeds the limit (4300 digits) for integer string conversion: value has "
              ++ PyFloat.digits (Z.of_nat (List.length digits))
              ++ " digits; use sys.set_int_max_str_digits() to increase the limit")
  else Ok (value digits).

End Uni.

(** ** [re] on Unicode text *)

Module Ure.

Inductive regex : Type :=
| Eps
| Cls (p : N -> bool)
| Cat (r1 r2 : regex)
| Opt (r : regex)
| Plus (p : N -> bool).

(** A literal under [re.IGNORECASE]. *)
Fixpoint lit_i (s : Uni.text) : regex :=
  match s with
  | [] => Eps
  | l :: t => Cat (Cls (Uni.matches_i l)) (lit_i t)
  end.

Fixpoint star {A : Type} (p : N -> bool) (s : Uni.text)
    (k : Uni.text -> option A) : option A :=
  match s with
  | [] => k []
  | c :: t =>
      if p c
      then match star p t k with
           | Some x => Some x
           | None => k s
           end
      else k s
  end.

(** The backtracking matcher of [Re], on code points. *)
Fixpoint run {A : Type} (r : regex) (s : Uni.text)
    (k : Uni.text -> option A) : option A :=
  match r with
  | Eps => k s
  | Cls p =>
      match s with
      | c :: t => if p c then k t else None
      | [] => None
      end
  | Cat r1 r2 => run r1 s (fun s' => run r2 s' k)
  | Opt r' =>
      match run r' s k with
      | Some x => Some x
      | None => k s
      end
  | Plus p =>
      match s with
      | c :: t => if p c then star p t k else None
      | [] => None
      end
  end.

Record pattern : Type := { pre : regex; grp : regex; post : regex }.

Record rmatch : Type :=
  { group0 : Uni.text; group1 : Uni.text; rest : Uni.text }.

Definition consumed (s s' : Uni.text) : Uni.text :=
  firstn (List.length s - List.length s') s.

(** [re.match] at the start of [s]. *)
Definition match_at (pat : pattern) (s : Uni.text) : option rmatch :=
  run (pre pat) s (fun s1 =>
  run (grp pat) s1 (fun s2 =>
  run (post pat) s2 (fun s3 =>
    Some {| group0 := consumed s s3; group1 := consumed s1 s2; rest := s3 |}))).

(** [re.search] *)
Fixpoint search (pat : pattern) (s : Uni.text) : option rmatch :=
  match match_at pat s with
  | Some m => Some m
  | None =>
      match s with
      | [] => None
      | _ :: t => search pat t
      end
  end.

Fixpoint lang (r : regex) (w : Uni.text) : Prop :=
  match r with
  | Eps => w = []
  | Cls p => exists c, w = [c] /\ p c = true
  | Cat r1 r2 => exists u v, w = (u ++ v)%list /\ lang r1 u /\ lang r2 v
  | Opt r' => w = [] \/ lang r' w
  | Plus p => w <> [] /\ forallb p w = true
  end.

End Ure.

(** [r'(\d+)\s+<unit>s?'] under [re.IGNORECASE] *)
Definition duration_pattern (unit : string) : Ure.pattern :=
  {| Ure.pre := Ure.Eps;
     Ure.grp := Ure.Plus Uni.is_decimal;
     Ure.post := Ure.Cat (Ure.Plus Uni.is_space)
                   (Ure.Cat (Ure.lit_i (Uni.decode unit))
                            (Ure.Opt (Ure.Cls (Uni.matches_i 115)))) |}.

Definition duration_patterns : list Ure.pattern :=
  [duration_pattern "day"; duration_pattern "week"; duration_pattern "night"].

(** The body of the loop of [extract_duration] once [pattern] matched. *)
Definition duration_of_match (m : Ure.rmatch) : exc (option Z) :=
  number <- Uni.int (Ure.group1 m) ;;
  word <- last_item (Uni.split_ws (Ure.group0 m)) ;;
  let unit := Uni.lower word in
  if Uni.contains (Uni.decode "week") unit then Ok (Some (number * 7)%Z)
  else Ok (Some number).

Fixpoint first_duration (patterns : list Ure.pattern) (text : Uni.text)
    : exc (option Z) :=
  match patterns with
  | [] => Ok None
  | pattern :: others =>
      match Ure.search pattern text with
      | Some m => duration_of_match m
      | None => first_duration others text
      end
  end.

(** [extract_duration(text)] *)
Definition extract_duration (text : string) : exc (option Z) :=
  first_duration duration_patterns (Uni.decode text).

#[local] Set Warnings "-register-all".

(** Values of Python as [json.loads] builds them and [get_attractions]
    returns them. *)
Inductive pyval : Type :=
| PNone
| PBool (b : bool)
| PInt (n : Z)
| PFloat (x : PyFloat.float)
| PStr (s : string)
| PList (l : list pyval)
| PDict (d : list (string * pyval)).

(** The prompt of [get_attractions]. *)
Definition attractions_prompt (location : string) : string :=
  "
            Generate a JSON array of 5 real, popular tourist attractions in " ++ location ++ ". 
            For each attraction, include these fields:
            - name: The full name of the attraction
            - category: Type of attraction (museum, landmark, park, etc.)
            - description: A brief description
            - best_for: What type of travelers would enjoy this most
            
            Format as a clean JSON array with only these fields.
            ".

(** The placeholder list of the [except] around [json.loads]. *)
Definition fallback_attractions (location : string) : pyval :=
  PList
    [PDict [("name", PStr ("Top Attraction 1 in " ++ location));
            ("category", PStr "Popular Landmark");
            ("description", PStr "A must-visit destination known for its significance.");
            ("best_for", PStr "History enthusiasts")];
     PDict [("name", PStr ("Top Attraction 2 in " ++ location));
            ("category", PStr "Museum");
            ("description", PStr "Famous museum housing an impressive collection.");
            ("best_for", PStr "Art and history lovers")]].

Section Attractions.

(** The two library calls of [get_attractions]: the generative model,
    which answers with a text or raises, and the JSON parser. *)
Variable generate_content : string -> exc string.
Variable json_loads : string -> exc pyval.

(** The clean-up of the response between the call of the model and the
    parse, with the separators as the source has them. *)
Definition clean_response (attractions_text : string) : exc string :=
  if Py.contains "json" attractions_text then
    parts <- split "json" attractions_text ;;
    after <- item parts 1 ;;
    fields <- split "" after ;;
    inner <- item fields 0 ;;
    Ok (Py.strip inner)
  else if Py.contains "" attractions_text then
    parts <- split "" attractions_text ;;
    after <- item parts 1 ;;
    fields <- split "" after ;;
    inner <- item fields 0 ;;
    Ok (Py.strip inner)
  else Ok attractions_text.

(** The body of the outer [try]. *)
Definition attractions_body (location : string) : exc pyval :=
  attractions_text <- generate_content (attractions_prompt location) ;;
  attractions_text <- clean_response attractions_text ;;
  match json_loads attractions_text with
  | Ok attractions => Ok attractions
  | Raise _ => Ok (fallback_attractions location)
  end.

(** [get_attractions(location)] *)
Definition get_attractions (location : string) : pyval :=
  match attractions_body location with
  | Ok v => v
  | Raise e => PStr ("Error generating attractions: " ++ e)
  end.

End Attractions.

(** ** Vocabulary of the statements *)

(** The lines of a span, each followed by its line feed. *)
Definition with_newlines (ls : list string) : string :=
  fold_right (fun l acc => l ++ Py.nl ++ acc) "" ls.

Definition non_space (c : ascii) : bool := negb (Py.is_space c).

(** [d1] stands before [d2] in [l]. *)
Definition precedes (d1 d2 : string) (l : list string) : Prop :=
  exists a b c, l = (a ++ d1 :: b ++ d2 :: c)%list.

(** A non-empty run of decimal digits. *)
Definition digit_run (u : string) : Prop :=
  u <> "" /\ Re.all_in Py.is_digit u = true.

(** A dollar sign with a digit after it, at the start of [s] and anywhere
    in [s]. *)
Definition amount_at (s : string) : bool :=
  match s with
  | String c (String d _) => Ascii.eqb c "$" && Py.is_digit d
  | _ => false
  end.

Fixpoint has_amount (s : string) : bool :=
  match s with
  | EmptyString => false
  | String _ t => amount_at s || has_amount t
  end.

(** [g] is the capture of some match of the dollar pattern. *)
Definition captured (g : string) : Prop :=
  exists at_ m, Re.match_at dollar_pattern at_ = Some m /\ Re.group1 m = g.

(** The units of the duration patterns, in their order. *)
Definition units : list string := ["day"; "week"; "night"].

(** The documents and requests of the scenarios. *)
Definition budget_document : string :=
  "## Budget
Total: $1,200 for flights
## Tips
Bring sunscreen".

Definition tokyo_request : string :=
  "Plan a 7-day trip to Tokyo and Kyoto in autumn for a solo traveler".

(** ** app.py, the itinerary column of [main] *)

(** The scan of [s.find(sub)]: the index of the first occurrence, or -1. *)
Fixpoint find_from (sub s : string) (i : nat) : Z :=
  if Py.startswith sub s then Z.of_nat i
  else match s with
       | EmptyString => (-1)%Z
       | String _ t => find_from sub t (S i)
       end.

(** [s.find(sub)] *)
Definition find (sub s : string) : Z := find_from sub s 0.

(** [s[:i]] and [s[i:]] for an index that is not negative, as the
    guards [> 0] of the caller make it. *)
Definition slice_to (s : string) (i : Z) : string := Py.take (Z.to_nat i) s.
Definition slice_from (s : string) (i : Z) : string := Py.drop (Z.to_nat i) s.

(** The texts that the itinerary column hands to [st.markdown], in their
    order, from the itinerary without asterisks, the currency chosen and
    the budget check box. *)
Definition show_itinerary (itinerary_no_asterisks : string)
    (preferred_currency : currency) (include_budget : bool) : list string :=
  if negb (currency_eqb preferred_currency USD) && include_budget then
    let budget_section :=
      generate_budget_section itinerary_no_asterisks preferred_currency in
    if negb (String.eqb budget_section "") then
      let budget_index := find "budget" (Py.lower itinerary_no_asterisks) in
      if (0 <? budget_index)%Z then
        let next_section :=
          find (Py.nl ++ "#") (slice_from itinerary_no_asterisks budget_index) in
        [slice_to itinerary_no_asterisks budget_index; budget_section]
        ++ (if (0 <? next_section)%Z
            then [slice_from itinerary_no_asterisks (budget_index + next_section)]
            else [])
      else [itinerary_no_asterisks]
    else [itinerary_no_asterisks]
  else [itinerary_no_asterisks].

(** ** itinerary_planner.py, the request of [get_weather] *)

(** The characters [urllib.parse.quote] leaves as they are: letters,
    digits, [_.-~] and, by its default [safe], the slash. *)
Definition unreserved (c : ascii) : bool :=
  Py.is_alpha c || Py.is_digit c
  || Ascii.eqb c "_" || Ascii.eqb c "." || Ascii.eqb c "-" || Ascii.eqb c "~"
  || Ascii.eqb c "/".

(** One upper-case hexadecimal digit. *)
Definition hex_char (n : nat) : ascii :=
  if Nat.ltb n 10 then ascii_of_nat (48 + n) else ascii_of_nat (55 + n).

(** [urllib.parse.quote(s)]: every other byte of the UTF-8 text becomes
    [%XX]. *)
Fixpoint quote (s : string) : string :=
  match s with
  | EmptyString => EmptyString
  | String c t =>
      if unreserved c then String c (quote t)
      else String "%" (String (hex_char (Py.code c / 16))
                         (String (hex_char (Py.code c mod 16)) (quote t)))
  end.

(** [not date_str or date_str.lower() == "current"], with [None] for the
    default of the parameter. *)
Definition wants_current (date_str : option string) : bool :=
  match date_str with
  | None => true
  | Some d => String.eqb d "" || String.eqb (Py.lower d) "current"
  end.

(** The URL that [get_weather] requests once the API key is there. *)
Definition weather_url (location : string) (date_str : option string)
    (api_key : string) : string :=
  let encoded_location := quote location in
  if wants_current date_str
  then "https://api.openweathermap.org/data/2.5/weather?q="
       ++ encoded_location ++ "&appid=" ++ api_key ++ "&units=metric"
  else "https://api.openweathermap.org/data/2.5/forecast?q="
       ++ encoded_location ++ "&appid=" ++ api_key ++ "&units=metric".

(** ** itinerary_planner.py, the dates *)

(** The date patterns add alternation to the expressions of [Re]; an
    alternative is tried after the one before it has failed with all
    that follows it, as [re] does. *)
Inductive regex_alt : Type :=
| Base (r : Re.regex)
| Seq (a b : regex_alt)
| Alt (a b : regex_alt)
| Maybe (a : regex_alt).

Fixpoint run_alt {A : Type} (r : regex_alt) (s : string)
    (k : string -> option A) : option A :=
  match r with
  | Base r0 => Re.run r0 s k
  | Seq a b => run_alt a s (fun s' => run_alt b s' k)
  | Alt a b =>
      match run_alt a s k with
      | Some x => Some x
      | None => run_alt b s k
      end
  | Maybe a =>
      match run_alt a s k with
      | Some x => Some x
      | None => k s
      end
  end.

(** [(?:w1|w2|...)] under [re.IGNORECASE] *)
Fixpoint one_of_i (words : list string) : regex_alt :=
  match words with
  | [] => Base (Re.Cls (fun _ => false))
  | [w] => Base (Re.lit_i w)
  | w :: ws => Alt (Base (Re.lit_i w)) (one_of_i ws)
  end.

(** The text of a match at the start of [s]; each date pattern is one
    group, so [group(1)] is the whole match. *)
Definition match_alt (r : regex_alt) (s : string) : option string :=
  run_alt r s (fun s' => Some (Re.consumed s s')).

(** [re.findall] for such a pattern. *)
Fixpoint findall_alt_from (r : regex_alt) (s : string) (skip : nat)
    : list string :=
  match s with
  | EmptyString =>
      match match_alt r s with
      | Some g => [g]
      | None => []
      end
  | String _ t =>
      match skip with
      | S k => findall_alt_from r t k
      | O =>
          match match_alt r s with
          | Some g => g :: findall_alt_from r t (String.length g - 1)
          | None => findall_alt_from r t 0
          end
      end
  end.

Definition findall_alt (r : regex_alt) (s : string) : list string :=
  findall_alt_from r s 0.

Definition months : list string :=
  ["January"; "February"; "March"; "April"; "May"; "June"; "July";
   "August"; "September"; "October"; "November"; "December"].

(** [\d], [\d{1,2}] and [\d{4}] *)
Definition digit : Re.regex := Re.Cls Py.is_digit.
Definition day_number : Re.regex := Re.Cat digit (Re.Opt digit).
Definition year : Re.regex := Re.Cat digit (Re.Cat digit (Re.Cat digit digit)).

(** [(?:st|nd|rd|th)?] *)
Definition ordinal_suffix : regex_alt := Maybe (one_of_i ["st"; "nd"; "rd"; "th"]).

(** The four patterns of [date_patterns], in their order. *)
Definition day_month_year : regex_alt :=
  Seq (Seq (Base day_number)
        (Seq ordinal_suffix
          (Seq (Base (Re.Plus Py.is_space))
            (Seq (one_of_i months) (Base (Re.Plus Py.is_space))))))
      (Base year).

Definition month_day_year : regex_alt :=
  Seq (Seq (one_of_i months)
        (Seq (Base (Re.Plus Py.is_space))
          (Seq (Base day_number)
            (Seq ordinal_suffix
              (Seq (Base (Re.Opt (Re.chr ",")))
                   (Base (Re.Plus Py.is_space)))))))
      (Base year).

Definition slashed_date : regex_alt :=
  Seq (Base (Re.Cat day_number
              (Re.Cat (Re.chr "/") (Re.Cat day_number (Re.chr "/")))))
      (Base year).

Definition iso_date : regex_alt :=
  Seq (Base year)
      (Base (Re.Cat (Re.chr "-")
              (Re.Cat day_number (Re.Cat (Re.chr "-") day_number)))).

Definition date_patterns : list regex_alt :=
  [day_month_year; month_day_year; slashed_date; iso_date].

(** [extract_dates(text)] *)
Definition extract_dates (text : string) : list string :=
  flat_map (fun pattern => findall_alt pattern text) date_patterns.

(** ** Vocabulary of the further statements *)

(** [s] without the occurrences of the character [c]. *)
Fixpoint delete_char (c : ascii) (s : string) : string :=
  match s with
  | EmptyString => EmptyString
  | String x t =>
      if Ascii.eqb x c then delete_char c t else String x (delete_char c t)
  end.

(** [a] is [s] with some characters left out. *)
Inductive embeds : string -> string -> Prop :=
| embeds_nil : embeds "" ""
| embeds_keep (c : ascii) (a s : string) :
    embeds a s -> embeds (String c a) (String c s)
| embeds_insert (c : ascii) (a s : string) :
    embeds a s -> embeds a (String c s).

(** The test of the loop over the words, on a word. *)
Definition capitalised (word : string) : bool :=
  match word with
  | EmptyString => false
  | String c _ =>
      Py.is_upper c && Nat.ltb 3 (String.length word)
      && negb (mem (Py.lower word) stoplist)
  end.

(** The last character of [s] is in the class [p]. *)
Fixpoint ends_with (p : ascii -> bool) (s : string) : bool :=
  match s with
  | EmptyString => false
  | String c EmptyString => p c
  | String _ t => ends_with p t
  end.

(** Zero or a finite number, neither infinite nor NaN. *)
Definition is_finite (x : PyFloat.float) : bool :=
  match x with
  | S754_zero _ | S754_finite _ _ _ => true
  | _ => false
  end.

(** The value [convert_currency] formats. *)
Definition converted_value (amount_usd : PyFloat.float) (c : currency)
    : PyFloat.float :=
  if currency_eqb c USD then amount_usd
  else PyFloat.mul amount_usd (exchange_rates c).

(** The currencies shown without decimal places. *)
Definition whole_units (c : currency) : bool :=
  currency_eqb c JPY || currency_eqb c INR.

Definition not_point (c : ascii) : bool := negb (Ascii.eqb c ".").

(** A character of an encoded text. *)
Definition quoted_char (c : ascii) : bool := unreserved c || Ascii.eqb c "%".

(** The words an expression with alternation denotes. *)
Fixpoint lang_alt (r : regex_alt) (w : string) : Prop :=
  match r with
  | Base r0 => Re.lang r0 w
  | Seq a b => exists u v, w = u ++ v /\ lang_alt a u /\ lang_alt b v
  | Alt a b => lang_alt a w \/ lang_alt b w
  | Maybe a => w = "" \/ lang_alt a w
  end.

(** Four decimal digits. *)
Definition four_digits (y : string) : Prop :=
  String.length y = 4 /\ Re.all_in Py.is_digit y = true.

(** ** Vocabulary of the durations *)

(** The spellings of a word of a pattern under [re.IGNORECASE]. *)
Definition spellings (v : Uni.text) : list Uni.text :=
  fold_right
    (fun l acc => flat_map (fun c => map (cons c) acc) (Uni.variants l))
    [[]] v.

(** The words that can end a match of the pattern of [unit]: the unit in
    each of its spellings, with or without its [s]. *)
Definition unit_words (unit : string) : list Uni.text :=
  flat_map (fun u => u :: map (fun c => (u ++ [c])%list) (Uni.variants 115))
           (spellings (Uni.decode unit)).

(** What [extract_duration] relies on in such a word: it is one word for
    [split()], and its lowered form has [week] in it for the weeks
    only. *)
Definition unit_word_ok (unit : string) (word : Uni.text) : bool :=
  match word with
  | [] => false
  | _ :: _ => true
  end
  && forallb (fun c => negb (Uni.is_space c)) word
  && Bool.eqb (Uni.contains (Uni.decode "week") (Uni.lower word))
              (String.eqb unit "week").

(** The last character of [s] is in the class [p]. *)
Definition last_is (p : N -> bool) (s : Uni.text) : bool :=
  match rev s with
  | c :: _ => p c
  | [] => false
  end.

Fixpoint nines (n : nat) : string :=
  match n with
  | O => EmptyString
  | S k => String "9" (nines k)
  end.

(** A stay of 4301 digits. *)
Definition long_stay : string := nines 4301 ++ " days".

(** [٣ days], with the Arabic-Indic digit three (U+0663), and [٣5 days]
    after a no-break space (U+00A0). *)
Definition arabic_three_days : string := String "217" (String "163" " days").

Definition mixed_digits_days : string :=
  String "194" (String "160" (String "217" (String "163" "5 days"))).

(** [5 days] with a no-break space between the number and the unit. *)
Definition no_break_days : string := String "5" (String "194" (String "160" "days")).

(** Every character of [s] is an ASCII character. *)
Definition is_ascii (s : string) : bool :=
  Re.all_in (fun c => Nat.ltb (Py.code c) 128) s.

(** * Properties *)

(** ** Strings *)

Lemma append_nil_r (s : string) : s ++ "" = s.
Proof. induction s as [|c t IH]; cbn; [reflexivity | now rewrite IH]. Qed.

Lemma append_assoc (a b c : string) : (a ++ b) ++ c = a ++ (b ++ c).
Proof. induction a as [|x a IH]; cbn; [reflexivity | now rewrite IH]. Qed.

Lemma length_append (a b : string) :
  String.length (a ++ b) = String.length a + String.length b.
Proof. induction a as [|x a IH]; cbn; [reflexivity | now rewrite IH]. Qed.

Lemma take_append (a b : string) : Py.take (String.length a) (a ++ b) = a.
Proof. induction a as [|x a IH]; cbn; [now destruct b | now rewrite IH]. Qed.

Lemma consumed_append (w s : string) : Re.consumed (w ++ s) s = w.
Proof.
  unfold Re.consumed. rewrite length_append.
  replace (String.length w + String.length s - String.length s)
    with (String.length w) by lia.
  apply take_append.
Qed.

(** ** Soundness of the matcher *)

Lemma star_sound {A : Type} (p : ascii -> bool) (k : string -> option A) :
  forall s x, Re.star p s k = Some x ->
    exists w s', s = w ++ s' /\ Re.all_in p w = true /\ k s' = Some x.
Proof.
  induction s as [|c t IH]; intros x H; cbn [Re.star] in H.
  - now exists "", "".
  - destruct (p c) eqn:Hp.
    + destruct (Re.star p t k) as [y|] eqn:Hs.
      * injection H as ->. destruct (IH _ eq_refl) as (w & s' & -> & Hw & Hk).
        exists (String c w), s'. cbn. now rewrite Hp, Hw.
      * now exists "", (String c t).
    + now exists "", (String c t).
Qed.

Lemma run_sound {A : Type} (r : Re.regex) :
  forall (k : string -> option A) s x, Re.run r s k = Some x ->
    exists w s', s = w ++ s' /\ Re.lang r w /\ k s' = Some x.
Proof.
  induction r as [|p|r1 IH1 r2 IH2|r IH|p|]; intros k s x H; cbn [Re.run] in H.
  - now exists "", s.
  - destruct s as [|c t]; [discriminate|].
    destruct (p c) eqn:Hp; [|discriminate].
    exists (String c ""), t. repeat split; [|assumption]. now exists c.
  - apply IH1 in H. destruct H as (w1 & s1 & -> & L1 & H).
    apply IH2 in H. destruct H as (w2 & s2 & -> & L2 & H).
    exists (w1 ++ w2), s2. rewrite append_assoc. repeat split; [|assumption].
    now exists w1, w2.
  - destruct (Re.run r s k) as [y|] eqn:Hr.
    + injection H as ->. apply IH in Hr. destruct Hr as (w & s' & -> & L & Hk).
      exists w, s'. repeat split; [now right | assumption].
    + exists "", s. repeat split; [now left | assumption].
  - destruct s as [|c t]; [discriminate|].
    destruct (p c) eqn:Hp; [|discriminate].
    apply star_sound in H. destruct H as (w & s' & -> & Hw & Hk).
    exists (String c w), s'. repeat split; [discriminate | | assumption].
    cbn. now rewrite Hp, Hw.
  - destruct (Re.at_end s); [|discriminate]. now exists "", s.
Qed.

Lemma match_at_sound (pat : Re.pattern) (s : string) (m : Re.rmatch) :
  Re.match_at pat s = Some m ->
  exists w1 w2 w3,
    s = w1 ++ w2 ++ w3 ++ Re.rest m
    /\ Re.lang (Re.pre pat) w1 /\ Re.lang (Re.grp pat) w2
    /\ Re.lang (Re.post pat) w3
    /\ Re.group0 m = w1 ++ w2 ++ w3 /\ Re.group1 m = w2.
Proof.
  unfold Re.match_at. intros H.
  apply run_sound in H. destruct H as (w1 & s1 & -> & L1 & H).
  apply run_sound in H. destruct H as (w2 & s2 & -> & L2 & H).
  apply run_sound in H. destruct H as (w3 & s3 & -> & L3 & H).
  injection H as <-. cbn [Re.rest Re.group0 Re.group1].
  exists w1, w2, w3. repeat split; try assumption.
  - rewrite <- (append_assoc w2 w3 s3), <- (append_assoc w1 (w2 ++ w3) s3).
    rewrite consumed_append. reflexivity.
  - apply consumed_append.
Qed.

Lemma search_sound (pat : Re.pattern) :
  forall s m, Re.search pat s = Some m ->
    exists before at_, s = before ++ at_ /\ Re.match_at pat at_ = Some m.
Proof.
  induction s as [|c t IH]; intros m H; cbn [Re.search] in H.
  - destruct (Re.match_at pat "") eqn:E; [|discriminate].
    injection H as ->. now exists "", "".
  - destruct (Re.match_at pat (String c t)) eqn:E.
    + injection H as ->. now exists "", (String c t).
    + destruct (IH _ H) as (b & a & -> & Hm). now exists (String c b), a.
Qed.

Lemma replace_from_drop (old new : string) :
  forall s k, Py.replace_from old new s k = Py.replace_from old new (Py.drop k s) 0.
Proof.
  induction s as [|c t IH]; intros k.
  - destruct k; reflexivity.
  - destruct k as [|k]; [reflexivity|].
    cbn [Py.replace_from Py.drop]. apply IH.
Qed.

(** Unfolding equation of the scan at an occurrence. *)
Lemma replace_from_hit (old new s : string) :
  old <> "" -> Py.startswith old s = true ->
  Py.replace_from old new s 0 = new ++ Py.replace_from old new (Py.drop (String.length old) s) 0.
Proof.
  intros Hne Hp. destruct s as [|c t].
  - destruct old; [congruence | discriminate].
  - cbn [Py.replace_from]. rewrite Hp. f_equal.
    rewrite replace_from_drop. destruct old as [|o old']; [congruence|].
    cbn [String.length Py.drop].
    replace (S (String.length old') - 1) with (String.length old') by lia.
    reflexivity.
Qed.

Lemma replace_from_miss (old new : string) (c : ascii) (t : string) :
  Py.startswith old (String c t) = false ->
  Py.replace_from old new (String c t) 0 = String c (Py.replace_from old new t 0).
Proof. intros Hp. cbn [Py.replace_from]. now rewrite Hp. Qed.

Lemma replace_absent (old new : string) :
  forall s, Py.contains old s = false -> Py.replace_from old new s 0 = s.
Proof.
  induction s as [|c t IH]; intros H; [reflexivity|].
  cbn [Py.contains] in H.
  destruct (Py.startswith old (String c t)) eqn:Hp; [discriminate|].
  rewrite replace_from_miss by assumption. now rewrite IH.
Qed.

(** After the scan no doubled asterisk is left. *)
Lemma remove_asterisks_cons_other (c : ascii) (t : string) :
  c <> "*"%char ->
  remove_asterisks (String c t) = String c (remove_asterisks t).
Proof.
  intros Hc. unfold remove_asterisks, Py.replace.
  apply replace_from_miss. cbn [Py.startswith].
  rewrite (proj2 (Ascii.eqb_neq _ _)) by congruence. reflexivity.
Qed.

Lemma remove_asterisks_pair (t : string) :
  remove_asterisks (String "*" (String "*" t)) = remove_asterisks t.
Proof.
  unfold remove_asterisks, Py.replace.
  rewrite replace_from_hit; [reflexivity | discriminate |].
  cbn. destruct t; reflexivity.
Qed.

Lemma remove_asterisks_single (c : ascii) (t : string) :
  c <> "*"%char ->
  remove_asterisks (String "*" (String c t)) = String "*" (remove_asterisks (String c t)).
Proof.
  intros Hc. unfold remove_asterisks, Py.replace.
  apply replace_from_miss. cbn [Py.startswith].
  rewrite Ascii.eqb_refl, (proj2 (Ascii.eqb_neq "*" c)) by congruence.
  reflexivity.
Qed.

Lemma contains_cons (sub : string) (c : ascii) (t : string) :
  Py.contains sub (String c t) =
  if Py.startswith sub (String c t) then true else Py.contains sub t.
Proof. reflexivity. Qed.

Lemma startswith_pair (a b : ascii) (c : ascii) (t : string) :
  Py.startswith (String a (String b "")) (String c t) =
  Ascii.eqb a c && Py.startswith (String b "") t.
Proof. reflexivity. Qed.

Lemma remove_asterisks_clean_aux :
  forall n s, String.length s <= n ->
    Py.contains "**" (remove_asterisks s) = false.
Proof.
  induction n as [|n IH]; intros s Hlen.
  - destruct s; [reflexivity | simpl in Hlen; lia].
  - destruct s as [|c t]; [reflexivity|].
    simpl in Hlen.
    destruct (ascii_dec c "*") as [-> | Hc].
    + destruct t as [|d u]; [reflexivity|].
      destruct (ascii_dec d "*") as [-> | Hd].
      * rewrite remove_asterisks_pair. apply IH. simpl in Hlen. lia.
      * rewrite remove_asterisks_single by assumption.
        assert (H : Py.contains "**" (remove_asterisks (String d u)) = false)
          by (apply IH; lia).
        rewrite remove_asterisks_cons_other in * by assumption.
        rewrite contains_cons, startswith_pair.
        cbn [Py.startswith].
        rewrite (proj2 (Ascii.eqb_neq "*" d)) by congruence.
        rewrite Bool.andb_false_r. exact H.
    + rewrite remove_asterisks_cons_other by assumption.
      rewrite contains_cons, startswith_pair.
      rewrite (proj2 (Ascii.eqb_neq "*" c)) by congruence.
      apply IH. lia.
Qed.

(** C9: markup stripping is idempotent. *)
Theorem remove_asterisks_idempotent (s : string) :
  remove_asterisks (remove_asterisks s) = remove_asterisks s.
Proof.
  unfold remove_asterisks at 1. unfold Py.replace.
  apply replace_absent.
  apply (remove_asterisks_clean_aux (String.length s)). apply Nat.le_refl.
Qed.

Lemma search_none (pat : Re.pattern) :
  forall s, Re.search pat s = None <->
    forall before at_, s = before ++ at_ -> Re.match_at pat at_ = None.
Proof.
  induction s as [|c t IH]; cbn [Re.search].
  - destruct (Re.match_at pat "") eqn:E.
    + split; [discriminate|]. intros H.
      specialize (H "" "" eq_refl). congruence.
    + split; [|reflexivity]. intros _ b a Hs.
      destruct b; [|discriminate]. cbn in Hs. now subst.
  - destruct (Re.match_at pat (String c t)) eqn:E.
    + split; [discriminate|]. intros H.
      specialize (H "" (String c t) eq_refl). congruence.
    + split.
      * intros H b a Hs. destruct b as [|x b].
        -- cbn in Hs. now subst.
        -- cbn in Hs. injection Hs as _ Hs. exact (proj1 IH H b a Hs).
      * intros H. apply IH. intros b a Hs. apply (H (String c b) a).
        cbn. now rewrite Hs.
Qed.

(** ** Replacement *)

Lemma startswith_length (p : string) :
  forall s, Py.startswith p s = true -> String.length p <= String.length s.
Proof.
  induction p as [|a p IH]; intros s H; cbn [String.length]; [lia|].
  destruct s as [|b s]; cbn [Py.startswith] in H; [discriminate|].
  apply andb_true_iff in H. destruct H as [_ H]. apply IH in H.
  cbn [String.length]. lia.
Qed.

Lemma length_drop (n : nat) :
  forall s, String.length (Py.drop n s) = String.length s - n.
Proof.
  induction n as [|n IH]; intros s; cbn [Py.drop]; [lia|].
  destruct s as [|c t]; [reflexivity|]. cbn [String.length]. apply IH.
Qed.

Lemma startswith_append (p rest : string) : Py.startswith p (p ++ rest) = true.
Proof.
  induction p as [|a p IH]; cbn [append Py.startswith]; [reflexivity|].
  now rewrite Ascii.eqb_refl, IH.
Qed.

Lemma contains_append (sub before rest : string) :
  Py.contains sub (before ++ sub ++ rest) = true.
Proof.
  induction before as [|c t IH]; cbn [append].
  - destruct (sub ++ rest) eqn:E.
    + cbn [Py.contains]. rewrite <- E at 1.
      now rewrite startswith_append.
    + rewrite contains_cons. rewrite <- E. now rewrite startswith_append.
  - rewrite contains_cons, IH. now destruct (Py.startswith sub _).
Qed.

(** A replacement that is no shorter than what it replaces does not
    shorten the text, and lengthens it when it is longer and there is an
    occurrence. *)
Lemma replace_from_length (old new : string) :
  old <> "" -> String.length old <= String.length new ->
  forall n s, String.length s <= n ->
    String.length s <= String.length (Py.replace_from old new s 0).
Proof.
  intros Hne Hlen. induction n as [|n IH]; intros s Hs.
  - destruct s; [cbn; lia | cbn in Hs; lia].
  - destruct s as [|c t]; [cbn; lia|].
    destruct (Py.startswith old (String c t)) eqn:Hp.
    + rewrite replace_from_hit by assumption.
      rewrite length_append.
      pose proof (startswith_length _ _ Hp) as Hl.
      assert (Ho : 0 < String.length old) by (destruct old; [congruence | cbn; lia]).
      assert (Hd : String.length (Py.drop (String.length old) (String c t)) <= n).
      { rewrite length_drop. cbn [String.length] in *. lia. }
      specialize (IH _ Hd). rewrite length_drop in IH. lia.
    + rewrite replace_from_miss by assumption.
      cbn [String.length] in *. specialize (IH t). lia.
Qed.

Lemma replace_from_longer (old new : string) :
  old <> "" -> String.length old < String.length new ->
  forall s, Py.contains old s = true ->
    String.length s < String.length (Py.replace_from old new s 0).
Proof.
  intros Hne Hlen. induction s as [|c t IH]; intros H.
  - destruct old; [congruence | discriminate].
  - rewrite contains_cons in H.
    destruct (Py.startswith old (String c t)) eqn:Hp.
    + rewrite replace_from_hit by assumption. rewrite length_append.
      pose proof (startswith_length _ _ Hp) as Hl.
      pose proof (replace_from_length old new Hne (Nat.lt_le_incl _ _ Hlen)
                    _ (Py.drop (String.length old) (String c t)) (Nat.le_refl _)) as Hg.
      rewrite length_drop in Hg. lia.
    + rewrite replace_from_miss by assumption.
      cbn [String.length]. specialize (IH H). lia.
Qed.

(** ** The matcher on Unicode text *)

Lemma uni_consumed_append (w s : Uni.text) : Ure.consumed (w ++ s)%list s = w.
Proof.
  unfold Ure.consumed. rewrite length_app.
  replace (List.length w + List.length s - List.length s)
    with (List.length w) by lia.
  rewrite firstn_app, firstn_all, Nat.sub_diag. cbn [firstn].
  apply app_nil_r.
Qed.

Lemma uni_star_sound {A : Type} (p : N -> bool) (k : Uni.text -> option A) :
  forall s x, Ure.star p s k = Some x ->
    exists w s', s = (w ++ s')%list /\ forallb p w = true /\ k s' = Some x.
Proof.
  induction s as [|c t IH]; intros x H; cbn [Ure.star] in H.
  - now exists [], [].
  - destruct (p c) eqn:Hp.
    + destruct (Ure.star p t k) as [y|] eqn:Hs.
      * injection H as ->. destruct (IH _ eq_refl) as (w & s' & -> & Hw & Hk).
        exists (c :: w), s'. cbn. now rewrite Hp, Hw.
      * now exists [], (c :: t).
    + now exists [], (c :: t).
Qed.

Lemma uni_run_sound {A : Type} (r : Ure.regex) :
  forall (k : Uni.text -> option A) s x, Ure.run r s k = Some x ->
    exists w s', s = (w ++ s')%list /\ Ure.lang r w /\ k s' = Some x.
Proof.
  induction r as [|p|r1 IH1 r2 IH2|r IH|p]; intros k s x H; cbn [Ure.run] in H.
  - now exists [], s.
  - destruct s as [|c t]; [discriminate|].
    destruct (p c) eqn:Hp; [|discriminate].
    exists [c], t. split; [reflexivity|]. split; [|assumption]. now exists c.
  - apply IH1 in H. destruct H as (w1 & s1 & -> & L1 & H).
    apply IH2 in H. destruct H as (w2 & s2 & -> & L2 & H).
    exists (w1 ++ w2)%list, s2. rewrite <- app_assoc.
    split; [reflexivity|]. split; [|assumption]. now exists w1, w2.
  - destruct (Ure.run r s k) as [y|] eqn:Hr.
    + injection H as ->. apply IH in Hr. destruct Hr as (w & s' & -> & L & Hk).
      exists w, s'. split; [reflexivity|]. split; [now right | assumption].
    + exists [], s. split; [reflexivity|]. split; [now left | assumption].
  - destruct s as [|c t]; [discriminate|].
    destruct (p c) eqn:Hp; [|discriminate].
    apply uni_star_sound in H. destruct H as (w & s' & -> & Hw & Hk).
    exists (c :: w), s'. split; [reflexivity|]. split; [|assumption].
    split; [discriminate|]. cbn. now rewrite Hp, Hw.
Qed.

Lemma uni_match_at_sound (pat : Ure.pattern) (s : Uni.text) (m : Ure.rmatch) :
  Ure.match_at pat s = Some m ->
  exists w1 w2 w3,
    s = (w1 ++ w2 ++ w3 ++ Ure.rest m)%list
    /\ Ure.lang (Ure.pre pat) w1 /\ Ure.lang (Ure.grp pat) w2
    /\ Ure.lang (Ure.post pat) w3
    /\ Ure.group0 m = (w1 ++ w2 ++ w3)%list /\ Ure.group1 m = w2.
Proof.
  unfold Ure.match_at. intros H.
  apply uni_run_sound in H. destruct H as (w1 & s1 & -> & L1 & H).
  apply uni_run_sound in H. destruct H as (w2 & s2 & -> & L2 & H).
  apply uni_run_sound in H. destruct H as (w3 & s3 & -> & L3 & H).
  injection H as <-. cbn [Ure.rest Ure.group0 Ure.group1].
  exists w1, w2, w3.
  split; [reflexivity|]. split; [assumption|]. split; [assumption|].
  split; [assumption|]. split.
  - rewrite (app_assoc w2 w3 s3), (app_assoc w1 (w2 ++ w3)%list s3).
    apply uni_consumed_append.
  - apply uni_consumed_append.
Qed.

Lemma uni_search_sound (pat : Ure.pattern) :
  forall s m, Ure.search pat s = Some m ->
    exists before at_, s = (before ++ at_)%list /\ Ure.match_at pat at_ = Some m.
Proof.
  induction s as [|c t IH]; intros m H; cbn [Ure.search] in H.
  - destruct (Ure.match_at pat []) eqn:E; [|discriminate].
    injection H as ->. now exists [], [].
  - destruct (Ure.match_at pat (c :: t)) eqn:E.
    + injection H as ->. now exists [], (c :: t).
    + destruct (IH _ H) as (b & a & -> & Hm). now exists (c :: b), a.
Qed.

Lemma uni_search_none (pat : Ure.pattern) :
  forall s, Ure.search pat s = None <->
    forall before at_, s = (before ++ at_)%list -> Ure.match_at pat at_ = None.
Proof.
  induction s as [|c t IH]; cbn [Ure.search].
  - destruct (Ure.match_at pat []) eqn:E.
    + split; [discriminate|]. intros H.
      specialize (H [] [] eq_refl). congruence.
    + split; [|reflexivity]. intros _ b a Hs.
      destruct b; [|discriminate]. cbn in Hs. now subst.
  - destruct (Ure.match_at pat (c :: t)) eqn:E.
    + split; [discriminate|]. intros H.
      specialize (H [] (c :: t) eq_refl). congruence.
    + split.
      * intros H b a Hs. destruct b as [|x b].
        -- cbn in Hs. now subst.
        -- cbn in Hs. injection Hs as _ Hs. exact (proj1 IH H b a Hs).
      * intros H. apply IH. intros b a Hs. apply (H (c :: b) a).
        cbn. now rewrite Hs.
Qed.

(** [re.search] returns the match at the first position that has one. *)
Lemma uni_search_leftmost (pat : Ure.pattern) :
  forall s m, Ure.search pat s = Some m ->
    exists before at_,
      s = (before ++ at_)%list /\ Ure.match_at pat at_ = Some m
      /\ forall b1 b2, before = (b1 ++ b2)%list -> b2 <> [] ->
                       Ure.match_at pat (b2 ++ at_)%list = None.
Proof.
  induction s as [|c t IH]; intros m H; cbn [Ure.search] in H.
  - destruct (Ure.match_at pat []) eqn:E; [|discriminate].
    injection H as ->. exists [], [].
    split; [reflexivity|]. split; [assumption|].
    intros b1 b2 Hb Hne. destruct b1, b2; try discriminate. congruence.
  - destruct (Ure.match_at pat (c :: t)) eqn:E.
    + injection H as ->. exists [], (c :: t).
      split; [reflexivity|]. split; [assumption|].
      intros b1 b2 Hb Hne. destruct b1, b2; try discriminate. congruence.
    + destruct (IH _ H) as (b & a & -> & Hm & Hl).
      exists (c :: b), a.
      split; [reflexivity|]. split; [assumption|].
      intros b1 b2 Hb Hne. destruct b1 as [|x b1].
      * cbn in Hb. subst b2. exact E.
      * cbn in Hb. injection Hb as _ Hb. now apply (Hl b1 b2).
Qed.

Lemma uni_star_none_ext {A : Type} (p : N -> bool)
    (k k' : Uni.text -> option A) :
  (forall s, k s = None <-> k' s = None) ->
  forall s, Ure.star p s k = None <-> Ure.star p s k' = None.
Proof.
  intros Hk. induction s as [|c t IH]; cbn [Ure.star]; [apply Hk|].
  destruct (p c); [|apply Hk].
  destruct (Ure.star p t k), (Ure.star p t k').
  - split; discriminate.
  - discriminate (proj2 IH eq_refl).
  - discriminate (proj1 IH eq_refl).
  - apply Hk.
Qed.

(** Whether a pattern matches does not depend on what is made of the
    match. *)
Lemma uni_run_none_ext {A : Type} (r : Ure.regex) :
  forall (k k' : Uni.text -> option A),
    (forall s, k s = None <-> k' s = None) ->
    forall s, Ure.run r s k = None <-> Ure.run r s k' = None.
Proof.
  induction r as [|p|r1 IH1 r2 IH2|r IH|p]; intros k k' Hk s; cbn [Ure.run].
  - apply Hk.
  - destruct s as [|c t]; [tauto|]. destruct (p c); [apply Hk | tauto].
  - apply IH1. intros s'. now apply IH2.
  - pose proof (IH k k' Hk s) as Hr.
    destruct (Ure.run r s k), (Ure.run r s k').
    + split; discriminate.
    + discriminate (proj2 Hr eq_refl).
    + discriminate (proj1 Hr eq_refl).
    + apply Hk.
  - destruct s as [|c t]; [tauto|]. destruct (p c); [|tauto].
    now apply uni_star_none_ext.
Qed.

(** ** Words of Unicode text *)

Lemma uni_split_ws_word (w : Uni.text) :
  w <> [] -> forallb (fun c => negb (Uni.is_space c)) w = true ->
  Uni.split_ws w = [w].
Proof.
  induction w as [|c t IH]; intros Hne Hw; [congruence|].
  cbn [forallb] in Hw. apply andb_true_iff in Hw. destruct Hw as [Hc Ht].
  apply negb_true_iff in Hc.
  cbn [Uni.split_ws]. rewrite Hc.
  destruct t as [|d u]; [reflexivity|].
  assert (Hd : Uni.is_space d = false).
  { cbn [forallb] in Ht. apply andb_true_iff in Ht.
    destruct Ht as [Hd _]. now apply negb_true_iff in Hd. }
  rewrite Hd. rewrite IH by (assumption || discriminate). reflexivity.
Qed.

Lemma uni_split_ws_spaces (sp y : Uni.text) :
  forallb Uni.is_space sp = true ->
  Uni.split_ws (sp ++ y)%list = Uni.split_ws y.
Proof.
  induction sp as [|c t IH]; intros H; [reflexivity|].
  cbn [forallb] in H. apply andb_true_iff in H. destruct H as [Hc Ht].
  cbn [app Uni.split_ws]. rewrite Hc. now apply IH.
Qed.

Lemma uni_split_ws_starts (c : N) (t : Uni.text) :
  Uni.is_space c = false -> Uni.split_ws (c :: t) <> [].
Proof.
  intros Hc. cbn [Uni.split_ws]. rewrite Hc.
  destruct t as [|d u]; [discriminate|].
  destruct (Uni.is_space d); [discriminate|].
  destruct (Uni.split_ws (d :: u)); discriminate.
Qed.

Lemma uni_split_ws_cons (c e : N) (u : Uni.text) :
  Uni.split_ws (c :: e :: u) =
    if Uni.is_space c then Uni.split_ws (e :: u)
    else if Uni.is_space e then [c] :: Uni.split_ws (e :: u)
         else match Uni.split_ws (e :: u) with
              | w :: ws => (c :: w) :: ws
              | [] => [[c]]
              end.
Proof. reflexivity. Qed.

(** A word boundary splits the list of words. *)
Lemma uni_split_ws_append (d : N) (y : Uni.text) :
  Uni.is_space d = true ->
  forall x, Uni.split_ws (x ++ d :: y)%list
            = (Uni.split_ws x ++ Uni.split_ws (d :: y))%list.
Proof.
  intros Hd. induction x as [|c t IH]; [reflexivity|].
  cbn [app]. destruct (Uni.is_space c) eqn:Hc.
  - cbn [Uni.split_ws]. rewrite Hc. exact IH.
  - destruct t as [|e u].
    + cbn [app]. rewrite uni_split_ws_cons, Hc, Hd.
      cbn [Uni.split_ws]. now rewrite Hc.
    + cbn [app] in IH |- *. rewrite !uni_split_ws_cons, Hc, IH.
      destruct (Uni.is_space e) eqn:He; [reflexivity|].
      pose proof (uni_split_ws_starts e u He) as Hne.
      destruct (Uni.split_ws (e :: u)); [congruence | reflexivity].
Qed.

Lemma uni_last_word (x sp w : Uni.text) :
  sp <> [] -> forallb Uni.is_space sp = true ->
  w <> [] -> forallb (fun c => negb (Uni.is_space c)) w = true ->
  last_item (Uni.split_ws (x ++ sp ++ w)%list) = Ok w.
Proof.
  intros Hsp Hs Hw Hn. destruct sp as [|d sp']; [congruence|].
  assert (Hd : Uni.is_space d = true).
  { cbn [forallb] in Hs. now apply andb_true_iff in Hs. }
  cbn [app]. rewrite (uni_split_ws_append d _ Hd).
  change (d :: (sp' ++ w)%list) with ((d :: sp') ++ w)%list.
  rewrite uni_split_ws_spaces by assumption.
  rewrite (uni_split_ws_word w) by assumption.
  unfold last_item. rewrite rev_app_distr. reflexivity.
Qed.

(** ** Durations *)

Lemma lang_spellings (v : Uni.text) :
  forall u, Ure.lang (Ure.lit_i v) u -> In u (spellings v).
Proof.
  induction v as [|l t IH]; intros u H; cbn [Ure.lit_i Ure.lang] in H.
  - subst. now left.
  - destruct H as (a & b & -> & (c & -> & Hc) & Hb).
    cbn [spellings fold_right]. apply in_flat_map.
    unfold Uni.matches_i in Hc. apply existsb_exists in Hc.
    destruct Hc as (x & Hx & E). apply N.eqb_eq in E. subst x.
    exists c. split; [assumption|].
    cbn [app]. apply in_map. now apply IH.
Qed.

(** The shape of a match of a duration pattern: the number, white space,
    and a last word that reads as the unit, with or without its [s]. *)
Lemma duration_match_shape (unit : string) (s : Uni.text) (m : Ure.rmatch) :
  Ure.match_at (duration_pattern unit) s = Some m ->
  exists sp word,
    s = (Ure.group1 m ++ sp ++ word ++ Ure.rest m)%list
    /\ Ure.group0 m = (Ure.group1 m ++ sp ++ word)%list
    /\ Ure.group1 m <> [] /\ forallb Uni.is_decimal (Ure.group1 m) = true
    /\ sp <> [] /\ forallb Uni.is_space sp = true
    /\ In word (unit_words unit).
Proof.
  intros H. apply uni_match_at_sound in H.
  destruct H as (w1 & w2 & w3 & Es & L1 & L2 & L3 & G0 & G1).
  cbn [duration_pattern Ure.pre Ure.grp Ure.post Ure.lang] in L1, L2, L3.
  subst w1. destruct L3 as (sp & v & -> & [Hsp Hs] & u & o & -> & Lu & Lo).
  destruct L2 as [Hne Hd].
  exists sp, (u ++ o)%list. rewrite G0, G1. cbn [app] in Es |- *.
  split; [now rewrite Es, <- !app_assoc|].
  split; [reflexivity|].
  split; [assumption|]. split; [assumption|].
  split; [assumption|]. split; [assumption|].
  unfold unit_words. apply in_flat_map. exists u.
  split; [now apply lang_spellings|].
  destruct Lo as [-> | (c & -> & Hc)].
  - left. symmetry. apply app_nil_r.
  - right. apply (in_map (fun x => (u ++ [x])%list)).
    unfold Uni.matches_i in Hc. apply existsb_exists in Hc.
    destruct Hc as (x & Hx & E). apply N.eqb_eq in E. now subst x.
Qed.

Lemma unit_words_ok (unit : string) :
  In unit units -> forallb (unit_word_ok unit) (unit_words unit) = true.
Proof.
  cbn [units In]. intros [<- | [<- | [<- | []]]]; vm_compute; reflexivity.
Qed.

(** What [extract_duration] makes of the match that [re.search] found:
    the lowered last word of the match has [week] in it for the pattern
    of the weeks and for no other. *)
Lemma duration_of_search (unit : string) (text : Uni.text) (m : Ure.rmatch) :
  In unit units ->
  Ure.search (duration_pattern unit) text = Some m ->
  duration_of_match m =
    (number <- Uni.int (Ure.group1 m) ;;
     Ok (Some (if String.eqb unit "week" then (number * 7)%Z else number))).
Proof.
  intros Hu H. apply uni_search_sound in H. destruct H as (_ & s & _ & H).
  apply duration_match_shape in H.
  destruct H as (sp & word & _ & G0 & _ & _ & Hsp & Hs & Hw).
  unfold duration_of_match.
  destruct (Uni.int (Ure.group1 m)) as [number|e]; [|reflexivity].
  cbn [bind]. rewrite G0.
  pose proof (unit_words_ok unit Hu) as Hok.
  rewrite forallb_forall in Hok. specialize (Hok word Hw).
  unfold unit_word_ok in Hok.
  apply andb_true_iff in Hok. destruct Hok as [Hok Hc].
  apply andb_true_iff in Hok. destruct Hok as [Hne Hn].
  rewrite uni_last_word; try assumption;
    [|intros ->; discriminate Hne].
  cbn [bind]. apply Bool.eqb_prop in Hc. rewrite Hc.
  destruct (String.eqb unit "week"); reflexivity.
Qed.

(** C5: the three patterns are tried in the order days, weeks, nights; the
    first one that matches somewhere in the text decides, wherever the
    others would match; weeks count seven days each, days and nights count
    as they are, and without a match the result is [None].  The number is
    what [int] makes of the capture, and [int] raises ValueError on more
    than 4300 digits. *)
Theorem extract_duration_priority (text : string) :
  extract_duration text =
    match Ure.search (duration_pattern "day") (Uni.decode text) with
    | Some m => number <- Uni.int (Ure.group1 m) ;; Ok (Some number)
    | None =>
        match Ure.search (duration_pattern "week") (Uni.decode text) with
        | Some m => number <- Uni.int (Ure.group1 m) ;; Ok (Some (number * 7)%Z)
        | None =>
            match Ure.search (duration_pattern "night") (Uni.decode text) with
            | Some m => number <- Uni.int (Ure.group1 m) ;; Ok (Some number)
            | None => Ok None
            end
        end
    end
  /\ (forall unit,
        Ure.search (duration_pattern unit) (Uni.decode text) = None <->
        forall before at_, Uni.decode text = (before ++ at_)%list ->
                           Ure.match_at (duration_pattern unit) at_ = None)
  /\ (forall digits,
        Uni.int digits =
          if Nat.leb (List.length digits) 4300 then Ok (Uni.value digits)
          else Raise ("Exceeds the limit (4300 digits) for integer string conversion: value has "
                      ++ PyFloat.digits (Z.of_nat (List.length digits))
                      ++ " digits; use sys.set_int_max_str_digits() to increase the limit"))
  /\ extract_duration "3 nights, 4 days" = Ok (Some 4%Z)
  /\ extract_duration "2 WEEKS" = Ok (Some 14%Z)
  /\ extract_duration arabic_three_days = Ok (Some 3%Z)
  /\ extract_duration no_break_days = Ok (Some 5%Z)
  /\ extract_duration "a long weekend" = Ok None.
Proof.
  split; [|split; [intros unit; apply uni_search_none | split]].
  - unfold extract_duration, duration_patterns. cbn [first_duration].
    destruct (Ure.search (duration_pattern "day") (Uni.decode text)) as [m|] eqn:Hd.
    { rewrite (duration_of_search "day" (Uni.decode text) m);
        [reflexivity | | assumption].
      cbn; tauto. }
    destruct (Ure.search (duration_pattern "week") (Uni.decode text)) as [m|] eqn:Hw.
    { rewrite (duration_of_search "week" (Uni.decode text) m);
        [reflexivity | | assumption].
      cbn; tauto. }
    destruct (Ure.search (duration_pattern "night") (Uni.decode text)) as [m|] eqn:Hn.
    { rewrite (duration_of_search "night" (Uni.decode text) m);
        [reflexivity | | assumption].
      cbn; tauto. }
    reflexivity.
  - intros digits. unfold Uni.int.
    destruct (Nat.ltb_spec 4300 (List.length digits)) as [H|H];
      destruct (Nat.leb_spec (List.length digits) 4300) as [H'|H'];
      try reflexivity; lia.
  - vm_compute. tauto.
Qed.

(** C5, the claim as it stands: a day pattern matches the stay of 4301
    digits, and the result is neither the number nor [None]: [int]
    raises ValueError, which [extract_duration] does not catch. *)
Lemma extract_duration_limit_counterexample :
  Ure.search (duration_pattern "day") (Uni.decode long_stay) <> None
  /\ extract_duration long_stay =
       Raise "Exceeds the limit (4300 digits) for integer string conversion: value has 4301 digits; use sys.set_int_max_str_digits() to increase the limit"
  /\ forall n, extract_duration long_stay <> Ok n.
Proof.
  assert (H : extract_duration long_stay =
       Raise "Exceeds the limit (4300 digits) for integer string conversion: value has 4301 digits; use sys.set_int_max_str_digits() to increase the limit")
    by (vm_compute; reflexivity).
  split; [vm_compute; discriminate|].
  split; [exact H|].
  intros n. rewrite H. discriminate.
Qed.

(** ** The budget span *)

Lemma section_body_stops (body rest : list string) :
  Forall (fun l => Py.startswith "#" l = false) body ->
  (rest = [] \/ exists next rest',
      rest = next :: rest' /\ Py.startswith "#" next = true) ->
  section_body (body ++ rest) = with_newlines body.
Proof.
  intros Hb Hr. induction Hb as [|l body Hl _ IH]; cbn [app section_body with_newlines fold_right].
  - destruct Hr as [-> | (next & rest' & -> & Hn)]; [reflexivity|].
    cbn [section_body]. now rewrite Hn.
  - rewrite Hl. now rewrite IH.
Qed.

Lemma locate_budget_skips (pre lines : list string) :
  Forall (fun l => budget_heading l = false) pre ->
  locate_budget (pre ++ lines) = locate_budget lines.
Proof.
  intros H. induction H as [|l pre Hl _ IH]; [reflexivity|].
  cbn [app locate_budget]. now rewrite Hl.
Qed.

Lemma locate_budget_none (lines : list string) :
  Forall (fun l => budget_heading l = false) lines ->
  locate_budget lines = (false, "").
Proof.
  intros H. rewrite <- (app_nil_r lines). now rewrite locate_budget_skips.
Qed.

(** C4: without a budget heading the outcome is the empty section, with
    [budget_found] false; otherwise the span runs from the first budget
    heading, the only one in particular, through the lines after it, and
    stops before the next line that starts with the heading marker. *)
Theorem budget_span_located (itinerary : string) :
  let lines := Py.split_from Py.nl itinerary 0 in
  (Forall (fun l => budget_heading l = false) lines ->
     locate_budget lines = (false, "")
     /\ forall c, generate_budget_section itinerary c = "")
  /\
  (forall pre h body rest,
     lines = (pre ++ h :: body ++ rest)%list ->
     Forall (fun l => budget_heading l = false) pre ->
     budget_heading h = true ->
     Forall (fun l => Py.startswith "#" l = false) body ->
     (rest = [] \/ exists next rest',
         rest = next :: rest' /\ Py.startswith "#" next = true) ->
     let span := h ++ Py.nl ++ with_newlines body in
     locate_budget lines = (true, span)
     /\ forall c, generate_budget_section itinerary c =
                  if currency_eqb c USD then remove_asterisks span
                  else enhanced_budget (remove_asterisks span) c).
Proof.
  intros lines. split.
  - intros H. pose proof (locate_budget_none lines H) as E.
    split; [exact E|]. intros c. unfold generate_budget_section.
    fold lines. rewrite E. reflexivity.
  - intros pre h body rest El Hpre Hh Hbody Hrest span.
    assert (E : locate_budget lines = (true, span)).
    { rewrite El, locate_budget_skips by assumption.
      cbn [locate_budget]. rewrite Hh.
      now rewrite section_body_stops. }
    split; [exact E|]. intros c. unfold generate_budget_section.
    fold lines. rewrite E. cbn [andb].
    destruct (currency_eqb c USD); reflexivity.
Qed.

Lemma budget_span_located_witness :
  generate_budget_section "no heading here" EUR = ""
  /\ generate_budget_section budget_document USD =
       remove_asterisks ("## Budget" ++ Py.nl
                         ++ with_newlines ["Total: $1,200 for flights"]).
Proof.
  split.
  - apply (proj1 (budget_span_located "no heading here")).
    repeat constructor.
  - refine (proj2 (proj2 (budget_span_located budget_document)
                     [] "## Budget" ["Total: $1,200 for flights"]
                     ["## Tips"; "Bring sunscreen"] eq_refl _ eq_refl _ _) USD).
    + constructor.
    + repeat constructor.
    + right. exists "## Tips", ["Bring sunscreen"]. split; reflexivity.
Defined.

(** ** Destinations *)

Lemma mem_In (x : string) (l : list string) : mem x l = true <-> In x l.
Proof.
  unfold mem. rewrite existsb_exists. split.
  - intros (y & Hy & E). apply String.eqb_eq in E. now subst.
  - intros H. exists x. split; [assumption | apply String.eqb_refl].
Qed.

Lemma unique_step_prefix (l acc : list string) :
  exists tail, fold_left unique_step l acc = (acc ++ tail)%list.
Proof.
  revert acc. induction l as [|d l IH]; intros acc; cbn [fold_left].
  - exists []. now rewrite app_nil_r.
  - unfold unique_step at 2. destruct (mem d acc).
    + apply IH.
    + destruct (IH (acc ++ [d])%list) as (tail & ->).
      exists (d :: tail). now rewrite <- app_assoc.
Qed.

Lemma unique_step_In (d : string) (l acc : list string) :
  In d (fold_left unique_step l acc) <-> In d acc \/ In d l.
Proof.
  revert acc. induction l as [|x l IH]; intros acc; cbn [fold_left].
  - cbn. tauto.
  - rewrite IH. unfold unique_step. destruct (mem x acc) eqn:Hm.
    + apply mem_In in Hm. cbn. intuition (subst; auto).
    + rewrite in_app_iff. cbn. tauto.
Qed.

Lemma unique_step_NoDup (l acc : list string) :
  NoDup acc -> NoDup (fold_left unique_step l acc).
Proof.
  revert acc. induction l as [|x l IH]; intros acc H; cbn [fold_left];
    [assumption|].
  apply IH. unfold unique_step. destruct (mem x acc) eqn:Hm; [assumption|].
  apply NoDup_app; [assumption | repeat constructor; intros [] |].
  intros y Hy [<- | []]. apply mem_In in Hy. congruence.
Qed.

Lemma unique_In (d : string) (l : list string) : In d (unique l) <-> In d l.
Proof. unfold unique. rewrite unique_step_In. cbn. tauto. Qed.

(** The first occurrences keep their order. *)
Lemma unique_order (l1 l2 : list string) (d1 d2 : string) :
  In d1 l1 -> In d2 l2 -> ~ In d2 l1 ->
  precedes d1 d2 (unique (l1 ++ l2)).
Proof.
  intros H1 H2 Hn. unfold unique. rewrite fold_left_app.
  fold (unique l1).
  destruct (unique_step_prefix l2 (unique l1)) as (tail & E).
  assert (Ht : In d2 tail).
  { assert (H : In d2 (fold_left unique_step l2 (unique l1)))
      by (apply unique_step_In; now right).
    rewrite E in H. apply in_app_iff in H. destruct H as [H | H]; [|assumption].
    exfalso. apply Hn. now apply unique_In. }
  rewrite E.
  apply (proj2 (unique_In _ _)) in H1.
  apply in_split in H1. destruct H1 as (a & b & ->).
  apply in_split in Ht. destruct Ht as (t1 & t2 & ->).
  exists a, (b ++ t1)%list, t2.
  now rewrite <- !app_assoc.
Qed.

(** C10: when a travel verb matched, the result lists the cleaned captures
    verb by verb in the order of [travel_verbs], whatever their places in
    the text, and of equal destinations the first in that order stays. *)
Theorem extract_destinations_phrase_order (text : string) :
  primary_destinations text <> [] ->
  let found := primary_destinations text in
  extract_destinations text = Ok (unique found)
  /\ NoDup (unique found)
  /\ (forall d, In d (unique found) <->
                exists verb, In verb travel_verbs
                             /\ In d (verb_destinations text verb))
  /\ (forall l1 l2 d1 d2,
        found = (l1 ++ l2)%list -> In d1 l1 -> In d2 l2 -> ~ In d2 l1 ->
        precedes d1 d2 (unique found))
  /\ (forall earlier v1 between v2 later d1 d2,
        travel_verbs = (earlier ++ v1 :: between ++ v2 :: later)%list ->
        In d1 (verb_destinations text v1) ->
        In d2 (verb_destinations text v2) ->
        (forall v, In v (earlier ++ [v1]) -> ~ In d2 (verb_destinations text v)) ->
        precedes d1 d2 (unique found)).
Proof.
  intros Hne found. repeat split.
  - unfold extract_destinations, found.
    destruct (primary_destinations text); [congruence | reflexivity].
  - apply unique_step_NoDup. constructor.
  - intros H. apply (proj1 (unique_In _ _)) in H.
    apply (proj1 (in_flat_map _ _ _)) in H. exact H.
  - intros H. apply (proj2 (unique_In _ _)).
    apply (proj2 (in_flat_map _ _ _)). exact H.
  - intros l1 l2 d1 d2 -> H1 H2 Hn. now apply unique_order.
  - intros earlier v1 between v2 later d1 d2 Ev H1 H2 Hn.
    unfold found, primary_destinations. rewrite Ev.
    replace (earlier ++ v1 :: between ++ v2 :: later)%list
      with ((earlier ++ [v1]) ++ (between ++ v2 :: later))%list
      by (now rewrite <- app_assoc).
    rewrite flat_map_app. apply unique_order.
    + apply in_flat_map. exists v1. split; [|assumption].
      apply in_app_iff. right. now left.
    + apply in_flat_map. exists v2. split; [|assumption].
      apply in_app_iff. right. now left.
    + intros H. apply in_flat_map in H. destruct H as (v & Hv & Hd).
      exact (Hn v Hv Hd).
Qed.

(** The verb [visit] is listed before [see]: its capture comes first
    although it stands later in the text. *)
Lemma extract_destinations_phrase_order_witness :
  primary_destinations "see Rome, then visit Paris!" <> []
  /\ extract_destinations "see Rome, then visit Paris!"
     = Ok ["Paris"; "Rome, then visit Paris"].
Proof.
  assert (H : primary_destinations "see Rome, then visit Paris!" <> [])
    by (vm_compute; discriminate).
  split; [exact H|].
  rewrite (proj1 (extract_destinations_phrase_order _ H)).
  vm_compute. reflexivity.
Defined.

(** ** Dollar amounts *)

Lemma findall_from_sound (pat : Re.pattern) :
  forall s k g, In g (Re.findall_from pat s k) ->
    exists before at_ m,
      s = before ++ at_ /\ Re.match_at pat at_ = Some m /\ Re.group1 m = g.
Proof.
  induction s as [|c t IH]; intros k g H; cbn [Re.findall_from] in H.
  - destruct (Re.match_at pat "") as [m|] eqn:E; [|contradiction].
    destruct H as [<- | []]. now exists "", "", m.
  - destruct k as [|k].
    + destruct (Re.match_at pat (String c t)) as [m|] eqn:E.
      * destruct H as [<- | H]; [now exists "", (String c t), m|].
        destruct (IH _ _ H) as (b & a & m' & -> & Hm & Hg).
        now exists (String c b), a, m'.
      * destruct (IH _ _ H) as (b & a & m' & -> & Hm & Hg).
        now exists (String c b), a, m'.
    + destruct (IH _ _ H) as (b & a & m' & -> & Hm & Hg).
      now exists (String c b), a, m'.
Qed.

Lemma lang_chr (c : ascii) (w : string) :
  Re.lang (Re.chr c) w -> w = String c "".
Proof. intros (x & -> & H). apply Ascii.eqb_eq in H. now subst. Qed.

(** What the dollar pattern matches: the dollar sign, digits, at most one
    group of digits after a comma, at most one after a point. *)
Lemma dollar_match_shape (s : string) (m : Re.rmatch) :
  Re.match_at dollar_pattern s = Some m ->
  exists u o1 o2,
    s = "$" ++ Re.group1 m ++ Re.rest m
    /\ Re.group1 m = u ++ o1 ++ o2
    /\ digit_run u
    /\ (o1 = "" \/ exists u2, o1 = "," ++ u2 /\ digit_run u2)
    /\ (o2 = "" \/ exists u3, o2 = "." ++ u3 /\ digit_run u3).
Proof.
  intros H. apply match_at_sound in H.
  destruct H as (w1 & w2 & w3 & Es & L1 & L2 & L3 & _ & G1).
  cbn [dollar_pattern Re.pre Re.grp Re.post] in L1, L2, L3.
  apply lang_chr in L1. cbn [Re.lang] in L3. subst w1 w3.
  cbn [Re.lang] in L2.
  destruct L2 as (u & v & -> & Hu & o1 & o2 & -> & Ho1 & Ho2).
  exists u, o1, o2. rewrite G1. repeat split.
  - rewrite Es. cbn [append]. reflexivity.
  - exact (proj1 Hu).
  - exact (proj2 Hu).
  - destruct Ho1 as [-> | (a & b & -> & La & Lb)]; [now left|].
    right. apply lang_chr in La. subst a. now exists b.
  - destruct Ho2 as [-> | (a & b & -> & La & Lb)]; [now left|].
    right. apply lang_chr in La. subst a. now exists b.
Qed.

Lemma digit_run_head (u : string) :
  digit_run u -> exists d t, u = String d t /\ Py.is_digit d = true.
Proof.
  intros [Hne Hd]. destruct u as [|d t]; [congruence|].
  cbn [Re.all_in] in Hd. apply andb_true_iff in Hd.
  exists d, t. tauto.
Qed.

Lemma dollar_match_amount_at (s : string) (m : Re.rmatch) :
  Re.match_at dollar_pattern s = Some m -> amount_at s = true.
Proof.
  intros H. apply dollar_match_shape in H.
  destruct H as (u & o1 & o2 & -> & -> & Hu & _).
  destruct (digit_run_head u Hu) as (d & t & -> & Hd).
  cbn [append amount_at]. now rewrite Hd.
Qed.

Lemma star_total {A : Type} (p : ascii -> bool) (k : string -> option A) :
  (forall s, k s <> None) -> forall s, Re.star p s k <> None.
Proof.
  intros Hk. induction s as [|c t IH]; cbn [Re.star]; [apply Hk|].
  destruct (p c); [|apply Hk].
  destruct (Re.star p t k); [discriminate | apply Hk].
Qed.

Lemma opt_total {A : Type} (r : Re.regex) (k : string -> option A) :
  (forall s, k s <> None) -> forall s, Re.run (Re.Opt r) s k <> None.
Proof.
  intros Hk s. cbn [Re.run]. destruct (Re.run r s k); [discriminate | apply Hk].
Qed.

Lemma amount_at_dollar_match (s : string) :
  amount_at s = true -> Re.match_at dollar_pattern s <> None.
Proof.
  intros H. destruct s as [|c [|d t]]; try discriminate.
  cbn [amount_at] in H. apply andb_true_iff in H. destruct H as [Hc Hd].
  apply Ascii.eqb_eq in Hc. subst c.
  unfold Re.match_at. cbn [dollar_pattern Re.pre Re.grp Re.post].
  cbn [Re.run Re.chr]. rewrite Ascii.eqb_refl, Hd.
  apply star_total. intros s1.
  change (Re.run (Re.Opt (Re.Cat (Re.Cls (Ascii.eqb ",")) (Re.Plus Py.is_digit))) s1
            (fun s' => Re.run (Re.Opt (Re.Cat (Re.Cls (Ascii.eqb ".")) (Re.Plus Py.is_digit))) s'
               (fun s2 => Some {| Re.group0 := Re.consumed (String "$" (String d t)) s2;
                                  Re.group1 := Re.consumed (String d t) s2;
                                  Re.rest := s2 |})) <> None).
  apply opt_total. intros s2. apply opt_total. discriminate.
Qed.

Lemma has_amount_append (before at_ : string) :
  amount_at at_ = true -> has_amount (before ++ at_) = true.
Proof.
  intros H. induction before as [|c t IH]; cbn [append].
  - destruct at_; [discriminate|]. cbn [has_amount]. now rewrite H.
  - cbn [has_amount]. rewrite IH. apply orb_true_r.
Qed.

Lemma findall_has_amount (s : string) :
  Re.findall dollar_pattern s <> [] <-> has_amount s = true.
Proof.
  unfold Re.findall. split.
  - intros H. destruct (Re.findall_from dollar_pattern s 0) as [|g l] eqn:E;
      [congruence|].
    destruct (findall_from_sound dollar_pattern s 0 g) as (b & a & m & -> & Hm & _).
    { rewrite E. now left. }
    apply has_amount_append. now apply dollar_match_amount_at in Hm.
  - induction s as [|c t IH]; intros H; [discriminate|].
    cbn [has_amount] in H. cbn [Re.findall_from].
    destruct (Re.match_at dollar_pattern (String c t)) eqn:E; [discriminate|].
    apply IH. destruct (amount_at (String c t)) eqn:Ha; [|exact H].
    now apply amount_at_dollar_match in Ha.
Qed.

Lemma all_in_append (p : ascii -> bool) (a b : string) :
  Re.all_in p (a ++ b) = Re.all_in p a && Re.all_in p b.
Proof.
  induction a as [|x a IH]; cbn [append Re.all_in]; [reflexivity|].
  now rewrite IH, andb_assoc.
Qed.

Lemma contains_char_absent (p : ascii -> bool) (c : ascii) :
  p c = false ->
  forall u, Re.all_in p u = true -> Py.contains (String c "") u = false.
Proof.
  intros Hc. induction u as [|x u IH]; intros H; [reflexivity|].
  cbn [Re.all_in] in H. apply andb_true_iff in H. destruct H as [Hx Hu].
  rewrite contains_cons. cbn [Py.startswith].
  destruct (Ascii.eqb_spec c x) as [-> | _]; [congruence|].
  cbn [andb]. now apply IH.
Qed.

Lemma replace_char_append (c : ascii) (new b : string) :
  forall a, Py.replace_from (String c "") new (a ++ b) 0
            = Py.replace_from (String c "") new a 0
              ++ Py.replace_from (String c "") new b 0.
Proof.
  induction a as [|x a IH]; [reflexivity|].
  cbn [append Py.replace_from Py.startswith String.length Nat.sub].
  destruct (Ascii.eqb c x); cbn [andb].
  - now rewrite IH, append_assoc.
  - cbn [append]. now rewrite IH.
Qed.

Lemma split_absent (sep : string) :
  forall s, Py.contains sep s = false -> Py.split_from sep s 0 = [s].
Proof.
  induction s as [|c t IH]; intros H; [reflexivity|].
  rewrite contains_cons in H. cbn [Py.split_from].
  destruct (Py.startswith sep (String c t)); [discriminate|].
  now rewrite IH.
Qed.

Lemma split_char_append (c : ascii) (y : string) :
  forall a, Py.contains (String c "") a = false ->
    Py.split_from (String c "") (a ++ String c y) 0
    = a :: Py.split_from (String c "") y 0.
Proof.
  induction a as [|x a IH]; intros H.
  - cbn [append Py.split_from Py.startswith String.length Nat.sub].
    now rewrite Ascii.eqb_refl.
  - rewrite contains_cons in H. cbn [Py.startswith] in H.
    cbn [append Py.split_from Py.startswith].
    destruct (Ascii.eqb c x); cbn [andb] in *; [discriminate|].
    now rewrite IH.
Qed.

Lemma numeral_digit_run (u : string) : digit_run u -> PyFloat.numeral u = true.
Proof.
  intros [Hne Hd]. unfold PyFloat.numeral. rewrite Hd.
  now rewrite (proj2 (String.eqb_neq u "")).
Qed.

Lemma digit_run_append (a b : string) :
  digit_run a -> b = "" \/ digit_run b -> digit_run (a ++ b).
Proof.
  intros [Hne Ha] Hb. split.
  - destruct a; [congruence | discriminate].
  - rewrite all_in_append, Ha. destruct Hb as [-> | [_ Hb]]; [reflexivity | exact Hb].
Qed.

(** The amounts the pattern captures are numerals once their comma is
    gone: the ValueError branch of the loop is never taken. *)
Lemma captured_amount_parses (s : string) (m : Re.rmatch) :
  Re.match_at dollar_pattern s = Some m ->
  PyFloat.parse (Py.replace "," "" (Re.group1 m)) <> None.
Proof.
  intros H. apply dollar_match_shape in H.
  destruct H as (u & o1 & o2 & _ & -> & Hu & Ho1 & Ho2).
  unfold Py.replace. rewrite !replace_char_append.
  assert (Hc : forall w, digit_run w -> Py.replace_from "," "" w 0 = w).
  { intros w [_ Hw]. apply replace_absent.
    now apply (contains_char_absent Py.is_digit). }
  rewrite (Hc u Hu).
  assert (E1 : exists v, Py.replace_from "," "" o1 0 = v /\ (v = "" \/ digit_run v)).
  { destruct Ho1 as [-> | (u2 & -> & H2)].
    - exists "". split; [reflexivity | now left].
    - exists u2. split; [|now right].
      rewrite replace_char_append. rewrite (Hc u2 H2). reflexivity. }
  destruct E1 as (v & -> & Hv).
  pose proof (digit_run_append u v Hu Hv) as HD.
  rewrite <- append_assoc. set (D := u ++ v) in *.
  assert (HDc : Py.contains "." D = false)
    by (apply (contains_char_absent Py.is_digit); [reflexivity | exact (proj2 HD)]).
  destruct Ho2 as [-> | (u3 & -> & H3)].
  - cbn [Py.replace_from]. rewrite append_nil_r.
    unfold PyFloat.parse. rewrite split_absent by assumption.
    now rewrite numeral_digit_run.
  - rewrite replace_char_append. rewrite (Hc u3 H3).
    change (Py.replace_from "," "" "." 0) with ".".
    change ("." ++ u3) with (String "." u3).
    unfold PyFloat.parse. rewrite split_char_append by assumption.
    rewrite split_absent
      by (apply (contains_char_absent Py.is_digit); [reflexivity | exact (proj2 H3)]).
    now rewrite !numeral_digit_run.
Qed.

Lemma has_amount_replace (d : ascii) (g suffix : string) :
  Py.is_digit d = true ->
  forall s, has_amount s = true ->
    has_amount (Py.replace_from (String "$" (String d g))
                  (String "$" (String d g) ++ suffix) s 0) = true.
Proof.
  intros Hd. induction s as [|c t IH]; intros H; [discriminate|].
  destruct (Py.startswith (String "$" (String d g)) (String c t)) eqn:Hp.
  - rewrite replace_from_hit by (assumption || discriminate).
    cbn [append has_amount amount_at]. now rewrite Hd.
  - rewrite replace_from_miss by assumption.
    cbn [has_amount] in H. apply orb_true_iff in H. destruct H as [H | H].
    + destruct t as [|d' t']; [discriminate|].
      cbn [amount_at] in H. apply andb_true_iff in H. destruct H as [Hc Hd'].
      rewrite replace_from_miss.
      * cbn [has_amount amount_at]. now rewrite Hc, Hd'.
      * cbn [Py.startswith].
        destruct (Ascii.eqb_spec "$" d') as [<- | _]; [discriminate | reflexivity].
    + cbn [has_amount]. rewrite (IH H). apply orb_true_r.
Qed.

(** One turn of the annotation loop on a captured amount. *)
Lemma annotate_amount_step (c : currency) (g : string) :
  captured g ->
  forall e,
    String.length e <= String.length (annotate_amount c e g)
    /\ (has_amount e = true -> has_amount (annotate_amount c e g) = true)
    /\ (Py.contains ("$" ++ g) e = true ->
        String.length e < String.length (annotate_amount c e g)).
Proof.
  intros (at_ & m & Hm & <-) e.
  pose proof (captured_amount_parses _ _ Hm) as Hp.
  unfold annotate_amount.
  destruct (PyFloat.parse (Py.replace "," "" (Re.group1 m))) as [x|]; [|congruence].
  set (suffix := " (" ++ convert_currency x c ++ ")").
  apply dollar_match_shape in Hm.
  destruct Hm as (u & o1 & o2 & _ & Eg & Hu & _).
  destruct (digit_run_head u Hu) as (d & t & -> & Hd).
  rewrite Eg. cbn [append]. set (g := t ++ o1 ++ o2).
  change (String "$" (String d (g ++ suffix)))
    with (String "$" (String d g) ++ suffix).
  unfold Py.replace.
  assert (Hlen : String.length (String "$" (String d g))
                 < String.length (String "$" (String d g) ++ suffix)).
  { rewrite length_append. unfold suffix. cbn [append String.length]. lia. }
  repeat split.
  - apply replace_from_length with (n := String.length e);
      [discriminate | lia | apply Nat.le_refl].
  - now apply has_amount_replace.
  - apply replace_from_longer; [discriminate | exact Hlen].
Qed.

Lemma annotate_amounts_fold (c : currency) (gs : list string) :
  Forall captured gs ->
  forall e,
    String.length e <= String.length (fold_left (annotate_amount c) gs e)
    /\ (has_amount e = true ->
        has_amount (fold_left (annotate_amount c) gs e) = true).
Proof.
  intros H. induction H as [|g gs Hg _ IH]; intros e; cbn [fold_left].
  - split; [apply Nat.le_refl | trivial].
  - destruct (annotate_amount_step c g Hg e) as (Hl & Ha & _).
    destruct (IH (annotate_amount c e g)) as (Hl' & Ha').
    split; [lia | auto].
Qed.

Lemma findall_captured (s : string) :
  Forall captured (Re.findall dollar_pattern s).
Proof.
  apply Forall_forall. intros g Hg.
  apply findall_from_sound in Hg. destruct Hg as (_ & a & m & _ & Hm & E).
  now exists a, m.
Qed.

(** An annotation with something to annotate lengthens the text and
    leaves a dollar amount in it. *)
Lemma enhanced_budget_grows (s : string) (c : currency) :
  Re.findall dollar_pattern s <> [] ->
  String.length s < String.length (enhanced_budget s c)
  /\ Re.findall dollar_pattern (enhanced_budget s c) <> [].
Proof.
  intros H. pose proof (findall_captured s) as Hc.
  pose proof (proj1 (findall_has_amount s) H) as Ha.
  unfold enhanced_budget.
  destruct (Re.findall dollar_pattern s) as [|g gs] eqn:E; [congruence|].
  assert (Hin : Py.contains ("$" ++ g) s = true).
  { destruct (findall_from_sound dollar_pattern s 0 g) as (b & a & m & -> & Hm & <-).
    { unfold Re.findall in E. rewrite E. now left. }
    apply dollar_match_shape in Hm. destruct Hm as (u & o1 & o2 & -> & _).
    change ("$" ++ Re.group1 m ++ Re.rest m)
      with (("$" ++ Re.group1 m) ++ Re.rest m).
    apply contains_append. }
  inversion Hc as [|g' gs' Hg Hgs]; subst.
  cbn [fold_left].
  destruct (annotate_amount_step c g Hg s) as (_ & Hs & Hl).
  destruct (annotate_amounts_fold c gs Hgs (annotate_amount c s g)) as (Hl' & Ha').
  split; [specialize (Hl Hin); lia|].
  apply findall_has_amount. auto.
Qed.

(** C3, amended: for a currency other than USD, the only ones for which
    the span is annotated, the pattern matches a dollar amount whether or
    not a parenthesised conversion follows it, so a second annotation
    finds the amounts of the first again and wraps them once more; each
    pass lengthens the text. *)
Theorem annotation_wraps_again (s : string) (c : currency) :
  c <> USD ->
  Re.findall dollar_pattern s <> [] ->
  Re.findall dollar_pattern (enhanced_budget s c) <> []
  /\ String.length (enhanced_budget s c)
     < String.length (enhanced_budget (enhanced_budget s c) c)
  /\ enhanced_budget (enhanced_budget s c) c <> enhanced_budget s c.
Proof.
  intros _ H. destruct (enhanced_budget_grows s c H) as (_ & H1).
  destruct (enhanced_budget_grows _ c H1) as (H2 & _).
  repeat split; [exact H1 | exact H2 |].
  intros E. rewrite E in H2. lia.
Qed.

Lemma annotation_wraps_again_witness :
  EUR <> USD
  /\ Re.findall dollar_pattern "Total: $1,200" <> []
  /\ enhanced_budget (enhanced_budget "Total: $1,200" EUR) EUR
     <> enhanced_budget "Total: $1,200" EUR.
Proof.
  assert (Hc : EUR <> USD) by discriminate.
  assert (H : Re.findall dollar_pattern "Total: $1,200" <> [])
    by (vm_compute; discriminate).
  split; [exact Hc|]. split; [exact H|].
  exact (proj2 (proj2 (annotation_wraps_again "Total: $1,200" EUR Hc H))).
Defined.

(** C3, as stated, fails: after one annotation the pattern matches the
    amount again although its conversion follows in parentheses, and the
    second annotation wraps it a second time. *)
Lemma annotation_twice_counterexample :
  enhanced_budget "Total: $1,200" EUR = "Total: $1,200 (€1,092.00)"
  /\ Re.search dollar_pattern "Total: $1,200 (€1,092.00)"
     = Some {| Re.group0 := "$1,200"; Re.group1 := "1,200";
               Re.rest := " (€1,092.00)" |}
  /\ enhanced_budget (enhanced_budget "Total: $1,200" EUR) EUR
     = "Total: $1,200 (€1,092.00) (€1,092.00)".
Proof. vm_compute. repeat split; reflexivity. Qed.

(** ** The budget scenario *)

(** C1: on the scenario document with EUR the returned span carries the
    annotated amount and stops before the Tips heading. *)
Theorem budget_scenario_eur :
  generate_budget_section budget_document EUR =
    "## Budget
Total: $1,200 (€1,092.00) for flights
"
  /\ convert_currency (PyFloat.of_decimal 1200 0) EUR = "€1,092.00"
  /\ Py.contains "## Tips" (generate_budget_section budget_document EUR) = false
  /\ Py.contains "Bring sunscreen" (generate_budget_section budget_document EUR) = false
  /\ Py.contains "## Tips
Bring sunscreen" budget_document = true.
Proof. vm_compute. repeat split; reflexivity. Qed.

(** C2: the loop runs over every match, in textual order and with
    repetitions; a repeated literal is annotated once per repetition at each
    occurrence, and a literal that starts a longer one is replaced inside
    it. *)
Theorem repeated_and_nested_literals :
  Re.findall dollar_pattern "Taxi: $5, bus: $5" = ["5"; "5"]
  /\ enhanced_budget "Taxi: $5, bus: $5" EUR =
       "Taxi: $5 (€4.55) (€4.55), bus: $5 (€4.55) (€4.55)"
  /\ Re.findall dollar_pattern "Snack: $5, dinner: $50" = ["5"; "50"]
  /\ enhanced_budget "Snack: $5, dinner: $50" EUR =
       "Snack: $5 (€4.55), dinner: $5 (€4.55)0".
Proof. vm_compute. repeat split; reflexivity. Qed.

(** C8: the pattern takes one group of thousands only; of [$1,200,000] it
    matches [$1,200] and the annotation lands inside the amount. *)
Theorem second_thousands_group_split :
  Re.findall dollar_pattern "Villa: $1,200,000" = ["1,200"]
  /\ generate_budget_section "## Budget
Villa: $1,200,000" EUR =
       "## Budget
Villa: $1,200 (€1,092.00),000
".
Proof. vm_compute. repeat split; reflexivity. Qed.

(** ** The Tokyo request *)

(** C6, as stated, fails: the duration is not 7, and no destination is
    [Tokyo]. *)
Lemma tokyo_request_counterexample :
  extract_duration tokyo_request <> Ok (Some 7%Z)
  /\ forall destinations,
       extract_destinations tokyo_request = Ok destinations ->
       ~ In "Tokyo" destinations.
Proof.
  split.
  - vm_compute. discriminate.
  - intros l H. vm_compute in H. injection H as <-.
    intros [E | []]. discriminate.
Qed.

(** C6, amended: no duration pattern matches [7-day], whose number and unit
    are joined by a hyphen; the one destination is the whole capture of
    [trip to], which starts with [Tokyo]. *)
Theorem tokyo_request_extraction :
  extract_duration tokyo_request = Ok None
  /\ extract_destinations tokyo_request =
       Ok ["Tokyo and Kyoto in autumn for a solo traveler"]
  /\ verb_destinations tokyo_request "trip to" =
       ["Tokyo and Kyoto in autumn for a solo traveler"]
  /\ Py.startswith "Tokyo" "Tokyo and Kyoto in autumn for a solo traveler" = true.
Proof. vm_compute. repeat split; reflexivity. Qed.

(** ** The attraction list *)

Lemma split_from_nonempty (sep : string) :
  forall s k, Py.split_from sep s k <> [].
Proof.
  induction s as [|c t IH]; intros k; cbn [Py.split_from]; [discriminate|].
  destruct k as [|k]; [|apply IH].
  destruct (Py.startswith sep (String c t)); [discriminate|].
  destruct (Py.split_from sep t 0); discriminate.
Qed.

Lemma split_from_two_fields (sep : string) :
  sep <> "" ->
  forall s, Py.contains sep s = true ->
    exists a b fields, Py.split_from sep s 0 = a :: b :: fields.
Proof.
  intros Hsep. induction s as [|c t IH]; intros H.
  - destruct sep; [congruence | discriminate].
  - rewrite contains_cons in H. cbn [Py.split_from].
    destruct (Py.startswith sep (String c t)) eqn:Hp.
    + destruct (Py.split_from sep t (String.length sep - 1)) as [|b fields] eqn:E.
      * now apply split_from_nonempty in E.
      * now exists "", b, fields.
    + destruct (IH H) as (a & b & fields & ->).
      now exists (String c a), b, fields.
Qed.

Lemma contains_nil (s : string) : Py.contains "" s = true.
Proof. destruct s; reflexivity. Qed.

Lemma clean_response_raises (attractions_text : string) :
  clean_response attractions_text = Raise "empty separator".
Proof.
  unfold clean_response.
  destruct (Py.contains "json" attractions_text) eqn:Hj.
  - destruct (split_from_two_fields "json" ltac:(discriminate) _ Hj)
      as (a & b & fields & E).
    unfold split at 1. rewrite E. reflexivity.
  - rewrite contains_nil. reflexivity.
Qed.

(** C7: whatever the model answers, the clean-up of the answer raises
    before the parse is tried, and the caller gets the error string; the
    placeholder list is never returned. *)
Theorem get_attractions_error_string
    (generate_content : string -> exc string)
    (json_loads : string -> exc pyval) (location : string) :
  get_attractions generate_content json_loads location =
    match generate_content (attractions_prompt location) with
    | Ok _ => PStr "Error generating attractions: empty separator"
    | Raise e => PStr ("Error generating attractions: " ++ e)
    end
  /\ get_attractions generate_content json_loads location
       <> fallback_attractions location.
Proof.
  unfold get_attractions, attractions_body.
  destruct (generate_content (attractions_prompt location)) as [text | e];
    cbn [bind].
  - rewrite clean_response_raises. cbn [bind]. split; [reflexivity | discriminate].
  - split; [reflexivity | discriminate].
Qed.

(** * Further properties *)

(** ** Markup stripping *)

Lemma replace_from_no_longer (old new : string) :
  old <> "" -> String.length new <= String.length old ->
  forall n s, String.length s <= n ->
    String.length (Py.replace_from old new s 0) <= String.length s.
Proof.
  intros Hne Hlen. induction n as [|n IH]; intros s Hs.
  - destruct s; [cbn; lia | cbn in Hs; lia].
  - destruct s as [|c t]; [cbn; lia|].
    destruct (Py.startswith old (String c t)) eqn:Hp.
    + rewrite replace_from_hit by assumption.
      rewrite length_append.
      pose proof (startswith_length _ _ Hp) as Hl.
      assert (Ho : 0 < String.length old) by (destruct old; [congruence | cbn; lia]).
      assert (Hd : String.length (Py.drop (String.length old) (String c t)) <= n).
      { rewrite length_drop. cbn [String.length] in *. lia. }
      specialize (IH _ Hd). rewrite length_drop in IH. lia.
    + rewrite replace_from_miss by assumption.
      cbn [String.length] in *. specialize (IH t). lia.
Qed.

Lemma replace_from_shorter (old new : string) :
  old <> "" -> String.length new < String.length old ->
  forall s, Py.contains old s = true ->
    String.length (Py.replace_from old new s 0) < String.length s.
Proof.
  intros Hne Hlen. induction s as [|c t IH]; intros H.
  - destruct old; [congruence | discriminate].
  - rewrite contains_cons in H.
    destruct (Py.startswith old (String c t)) eqn:Hp.
    + rewrite replace_from_hit by assumption. rewrite length_append.
      pose proof (startswith_length _ _ Hp) as Hl.
      pose proof (replace_from_no_longer old new Hne (Nat.lt_le_incl _ _ Hlen)
                    _ (Py.drop (String.length old) (String c t)) (Nat.le_refl _)) as Hg.
      rewrite length_drop in Hg. lia.
    + rewrite replace_from_miss by assumption.
      cbn [String.length]. specialize (IH H). lia.
Qed.

(** X1: what [remove_asterisks] returns has no doubled asterisk left,
    also where three or more asterisks stood in a row. *)
Theorem remove_asterisks_no_pair (s : string) :
  Py.contains "**" (remove_asterisks s) = false.
Proof.
  apply (remove_asterisks_clean_aux (String.length s)). apply Nat.le_refl.
Qed.

(** X2: [remove_asterisks] never lengthens a text, and leaves it as it is
    exactly when it has no doubled asterisk. *)
Theorem remove_asterisks_unchanged_iff (s : string) :
  String.length (remove_asterisks s) <= String.length s
  /\ (remove_asterisks s = s <-> Py.contains "**" s = false).
Proof.
  unfold remove_asterisks, Py.replace. split.
  - apply replace_from_no_longer with (n := String.length s);
      [discriminate | cbn; lia | apply Nat.le_refl].
  - split.
    + intros E. destruct (Py.contains "**" s) eqn:Hc; [|reflexivity].
      pose proof (replace_from_shorter "**" "" ltac:(discriminate)
                    ltac:(cbn; lia) s Hc) as Hl.
      rewrite E in Hl. lia.
    + apply replace_absent.
Qed.

Lemma delete_star_cases :
  forall n s, String.length s <= n ->
    delete_char "*" (remove_asterisks s) = delete_char "*" s
    /\ exists k, String.length s = String.length (remove_asterisks s) + 2 * k.
Proof.
  induction n as [|n IH]; intros s Hlen.
  - destruct s; [|cbn in Hlen; lia]. split; [reflexivity | now exists 0].
  - destruct s as [|c t]; [split; [reflexivity | now exists 0]|].
    cbn [String.length] in Hlen.
    destruct (ascii_dec c "*") as [-> | Hc].
    + destruct t as [|d u]; [split; [reflexivity | now exists 0]|].
      destruct (ascii_dec d "*") as [-> | Hd].
      * rewrite remove_asterisks_pair.
        destruct (IH u) as (E & k & Hk); [cbn [String.length] in Hlen; lia|].
        split; [exact E|]. exists (S k). cbn [String.length]. lia.
      * rewrite remove_asterisks_single by assumption.
        destruct (IH (String d u)) as (E & k & Hk); [lia|].
        split.
        -- cbn [delete_char]. rewrite Ascii.eqb_refl. exact E.
        -- exists k. cbn [String.length] in *. lia.
    + rewrite remove_asterisks_cons_other by assumption.
      destruct (IH t) as (E & k & Hk); [lia|].
      split.
      * cbn [delete_char]. rewrite (proj2 (Ascii.eqb_neq c "*")) by assumption.
        now rewrite E.
      * exists k. cbn [String.length]. lia.
Qed.

(** X3: [remove_asterisks] removes asterisks only, an even number of
    them: every other character stays, in its order. *)
Theorem remove_asterisks_only_asterisks (s : string) :
  delete_char "*" (remove_asterisks s) = delete_char "*" s
  /\ exists k, String.length s = String.length (remove_asterisks s) + 2 * k.
Proof. apply (delete_star_cases (String.length s)). apply Nat.le_refl. Qed.

(** ** Annotation *)

Lemma embeds_refl (s : string) : embeds s s.
Proof. induction s; constructor; assumption. Qed.

Lemma embeds_empty (s : string) : embeds "" s.
Proof. induction s; constructor; assumption. Qed.

Lemma embeds_append (a s b t : string) :
  embeds a s -> embeds b t -> embeds (a ++ b) (s ++ t).
Proof.
  intros H1 H2. induction H1; cbn [append]; [assumption | |];
    constructor; assumption.
Qed.

Lemma embeds_trans (a b c : string) : embeds a b -> embeds b c -> embeds a c.
Proof.
  intros H1 H2. revert a H1.
  induction H2 as [|x b c H2 IH|x b c H2 IH]; intros a H1.
  - assumption.
  - inversion H1; subst.
    + constructor. now apply IH.
    + apply embeds_insert. now apply IH.
  - apply embeds_insert. now apply IH.
Qed.

Lemma startswith_split (p : string) :
  forall s, Py.startswith p s = true -> s = p ++ Py.drop (String.length p) s.
Proof.
  induction p as [|a p IH]; intros s H; [reflexivity|].
  destruct s as [|b s]; cbn [Py.startswith] in H; [discriminate|].
  apply andb_true_iff in H. destruct H as [Hab Hp].
  apply Ascii.eqb_eq in Hab. subst b.
  cbn [String.length Py.drop append]. now rewrite <- IH.
Qed.

Lemma replace_from_embeds (old suffix : string) :
  old <> "" ->
  forall n s, String.length s <= n ->
    embeds s (Py.replace_from old (old ++ suffix) s 0).
Proof.
  intros Hne. induction n as [|n IH]; intros s Hs.
  - destruct s; [constructor | cbn in Hs; lia].
  - destruct s as [|c t]; [constructor|].
    destruct (Py.startswith old (String c t)) eqn:Hp.
    + rewrite replace_from_hit by assumption.
      rewrite (startswith_split _ _ Hp) at 1.
      apply embeds_append.
      * rewrite <- (append_nil_r old) at 1.
        apply embeds_append; [apply embeds_refl | apply embeds_empty].
      * apply IH. rewrite length_drop.
        assert (Ho : 0 < String.length old) by (destruct old; [congruence | cbn; lia]).
        cbn [String.length] in *. lia.
    + rewrite replace_from_miss by assumption.
      constructor. apply IH. cbn [String.length] in Hs. lia.
Qed.

Lemma annotate_amount_embeds (c : currency) (e g : string) :
  embeds e (annotate_amount c e g).
Proof.
  unfold annotate_amount.
  destruct (PyFloat.parse (Py.replace "," "" g)) as [x|]; [|apply embeds_refl].
  change ("$" ++ g ++ " (" ++ convert_currency x c ++ ")")
    with (String "$" g ++ " (" ++ convert_currency x c ++ ")").
  change ("$" ++ g) with (String "$" g). unfold Py.replace.
  apply replace_from_embeds with (n := String.length e);
    [discriminate | apply Nat.le_refl].
Qed.

(** X4: every amount the pattern captures is read by [float] once its
    comma is gone, so the [except ValueError] of the loop is never taken
    and each captured amount gets its replacement. *)
Theorem captured_amount_is_annotated (s e g : string) (c : currency) :
  In g (Re.findall dollar_pattern s) ->
  exists amount_usd,
    PyFloat.parse (Py.replace "," "" g) = Some amount_usd
    /\ annotate_amount c e g =
         Py.replace ("$" ++ g)
           ("$" ++ g ++ " (" ++ convert_currency amount_usd c ++ ")") e.
Proof.
  intros H. apply findall_from_sound in H.
  destruct H as (_ & a & m & _ & Hm & <-).
  pose proof (captured_amount_parses _ _ Hm) as Hp.
  unfold annotate_amount.
  destruct (PyFloat.parse (Py.replace "," "" (Re.group1 m))) as [x|];
    [|congruence].
  now exists x.
Qed.

Lemma captured_amount_is_annotated_witness :
  In "3.50" (Re.findall dollar_pattern "Coffee: $3.50")
  /\ exists amount_usd,
       PyFloat.parse (Py.replace "," "" "3.50") = Some amount_usd
       /\ annotate_amount GBP "Coffee: $3.50" "3.50" =
            Py.replace ("$" ++ "3.50")
              ("$" ++ "3.50" ++ " (" ++ convert_currency amount_usd GBP ++ ")")
              "Coffee: $3.50".
Proof.
  assert (H : In "3.50" (Re.findall dollar_pattern "Coffee: $3.50"))
    by (vm_compute; now left).
  split; [exact H|].
  exact (captured_amount_is_annotated "Coffee: $3.50" "Coffee: $3.50" "3.50" GBP H).
Defined.

(** X5: for a currency other than USD, the annotation changes a span of
    ASCII text exactly when a dollar sign with a digit after it occurs in
    it, and it never shortens the span. *)
Theorem enhanced_budget_changes_iff (s : string) (c : currency) :
  is_ascii s = true ->
  c <> USD ->
  (enhanced_budget s c = s <-> has_amount s = false)
  /\ String.length s <= String.length (enhanced_budget s c).
Proof.
  intros _ _. split.
  - split.
    + intros E. destruct (has_amount s) eqn:Ha; [|reflexivity].
      apply findall_has_amount in Ha.
      destruct (enhanced_budget_grows s c Ha) as (Hl & _).
      rewrite E in Hl. lia.
    + intros Ha. unfold enhanced_budget.
      destruct (Re.findall dollar_pattern s) as [|g gs] eqn:E; [reflexivity|].
      assert (Hn : Re.findall dollar_pattern s <> []) by (rewrite E; discriminate).
      apply findall_has_amount in Hn. congruence.
  - unfold enhanced_budget.
    apply (annotate_amounts_fold c _ (findall_captured s) s).
Qed.

Lemma enhanced_budget_changes_iff_witness :
  is_ascii "Total: $1,200" = true
  /\ EUR <> USD
  /\ (enhanced_budget "Total: $1,200" EUR = "Total: $1,200"
      <-> has_amount "Total: $1,200" = false)
  /\ String.length "Total: $1,200"
     <= String.length (enhanced_budget "Total: $1,200" EUR).
Proof.
  assert (Ha : is_ascii "Total: $1,200" = true) by reflexivity.
  assert (Hc : EUR <> USD) by discriminate.
  split; [exact Ha|]. split; [exact Hc|].
  exact (enhanced_budget_changes_iff "Total: $1,200" EUR Ha Hc).
Defined.

Lemma annotate_amounts_embeds (c : currency) (gs : list string) :
  forall e, embeds e (fold_left (annotate_amount c) gs e).
Proof.
  induction gs as [|g gs IH]; intros e; cbn [fold_left]; [apply embeds_refl|].
  eapply embeds_trans; [apply annotate_amount_embeds | apply IH].
Qed.

(** X6: the annotation only inserts text: the span it was given can be
    read off the annotated span by leaving characters out. *)
Theorem enhanced_budget_only_inserts (s : string) (c : currency) :
  embeds s (enhanced_budget s c).
Proof. unfold enhanced_budget. apply annotate_amounts_embeds. Qed.

(** ** The located span *)

Lemma locate_budget_cases (lines : list string) :
  (existsb budget_heading lines = false /\ locate_budget lines = (false, ""))
  \/ exists pre h tail,
       lines = (pre ++ h :: tail)%list
       /\ Forall (fun l => budget_heading l = false) pre
       /\ budget_heading h = true
       /\ locate_budget lines = (true, h ++ Py.nl ++ section_body tail).
Proof.
  induction lines as [|l lines IH]; [now left|].
  cbn [existsb locate_budget]. destruct (budget_heading l) eqn:Hl.
  - right. exists [], l, lines. repeat split; [constructor | assumption].
  - cbn [orb]. destruct IH as [IH | (pre & h & tail & -> & Hpre & Hh & E)].
    + now left.
    + right. exists (l :: pre), h, tail.
      repeat split; [constructor | |]; assumption.
Qed.

Lemma section_body_split (tail : list string) :
  exists body rest,
    tail = (body ++ rest)%list
    /\ section_body tail = with_newlines body
    /\ Forall (fun l => Py.startswith "#" l = false) body
    /\ (rest = [] \/ exists next rest',
           rest = next :: rest' /\ Py.startswith "#" next = true).
Proof.
  induction tail as [|l tail IH].
  - exists [], []. repeat split; [constructor | now left].
  - cbn [section_body]. destruct (Py.startswith "#" l) eqn:Hl.
    + exists [], (l :: tail). repeat split; [constructor|].
      right. now exists l, tail.
    + destruct IH as (body & rest & -> & E & Hb & Hr).
      exists (l :: body), rest. cbn [with_newlines fold_right].
      repeat split; [| constructor |]; try assumption.
      unfold with_newlines in E. now rewrite E.
Qed.

Lemma with_newlines_app (a b : list string) :
  with_newlines (a ++ b) = with_newlines a ++ with_newlines b.
Proof.
  induction a as [|l a IH]; [reflexivity|].
  cbn [app with_newlines fold_right]. unfold with_newlines in IH.
  now rewrite IH, !append_assoc.
Qed.

(** The lines of a text, each with its line feed, give the text back with
    one line feed more. *)
Lemma with_newlines_split (s : string) :
  with_newlines (Py.split_from Py.nl s 0) = s ++ Py.nl.
Proof.
  induction s as [|c t IH]; [reflexivity|].
  cbn [Py.split_from]. destruct (Py.startswith Py.nl (String c t)) eqn:Hp.
  - cbn [Py.startswith Py.nl] in Hp. apply andb_true_iff in Hp.
    destruct Hp as [Hc _]. apply Ascii.eqb_eq in Hc. subst c.
    change (String.length Py.nl - 1) with 0.
    cbn [with_newlines fold_right]. fold (with_newlines (Py.split_from Py.nl t 0)).
    now rewrite IH.
  - destruct (Py.split_from Py.nl t 0) as [|f fs] eqn:E.
    + now apply split_from_nonempty in E.
    + cbn [with_newlines fold_right] in *. cbn [append]. now rewrite IH.
Qed.

Lemma delete_char_append (c : ascii) (a b : string) :
  delete_char c (a ++ b) = delete_char c a ++ delete_char c b.
Proof.
  induction a as [|x a IH]; [reflexivity|].
  cbn [append delete_char]. destruct (Ascii.eqb x c); cbn [append]; now rewrite IH.
Qed.

Lemma remove_asterisks_of_line (h rest : string) :
  remove_asterisks (h ++ Py.nl ++ rest) <> "".
Proof.
  intros E.
  pose proof (proj1 (delete_star_cases _ (h ++ Py.nl ++ rest) (Nat.le_refl _))) as D.
  rewrite E, !delete_char_append in D. cbn [delete_char] in D.
  destruct (delete_char "*" h); discriminate.
Qed.

(** X7: the result is the empty string, which the caller reads as no
    budget section, exactly when no line of the itinerary has both
    [budget] and [#]; with such a line the result is never empty, for
    any currency. *)
Theorem budget_section_empty_iff (itinerary : string) (c : currency) :
  generate_budget_section itinerary c = ""
  <-> existsb budget_heading (Py.split_from Py.nl itinerary 0) = false.
Proof.
  unfold generate_budget_section.
  destruct (locate_budget_cases (Py.split_from Py.nl itinerary 0))
    as [[Hn E] | (pre & h & tail & El & Hpre & Hh & E)]; rewrite E.
  - cbn [andb]. split; [intros _; exact Hn | reflexivity].
  - assert (Hx : existsb budget_heading (Py.split_from Py.nl itinerary 0) = true).
    { rewrite El, existsb_app. cbn [existsb]. rewrite Hh.
      now rewrite orb_true_r. }
    rewrite Hx. split; [|discriminate]. intros H. exfalso.
    pose proof (remove_asterisks_of_line h (section_body tail)) as Hne.
    cbn [andb] in H. destruct (negb (currency_eqb c USD)); [|contradiction].
    pose proof (annotate_amounts_fold c _
                  (findall_captured (remove_asterisks (h ++ Py.nl ++ section_body tail)))
                  (remove_asterisks (h ++ Py.nl ++ section_body tail))) as [Hl _].
    unfold enhanced_budget in H. rewrite H in Hl.
    destruct (remove_asterisks (h ++ Py.nl ++ section_body tail));
      [contradiction | cbn in Hl; lia].
Qed.

(** X8: the span the scan locates is one contiguous block of the
    itinerary, taken with a final line feed: whole lines stand before it,
    none of them a budget heading, and whole lines after it, the first
    of which starts with the heading marker. *)
Theorem budget_span_contiguous (itinerary span : string) :
  locate_budget (Py.split_from Py.nl itinerary 0) = (true, span) ->
  exists pre rest,
    itinerary ++ Py.nl = with_newlines pre ++ span ++ with_newlines rest
    /\ Forall (fun l => budget_heading l = false) pre
    /\ (rest = [] \/ exists next rest',
           rest = next :: rest' /\ Py.startswith "#" next = true).
Proof.
  intros H.
  destruct (locate_budget_cases (Py.split_from Py.nl itinerary 0))
    as [[_ E] | (pre & h & tail & El & Hpre & Hh & E)]; [congruence|].
  rewrite E in H. injection H as <-.
  destruct (section_body_split tail) as (body & rest & -> & Eb & _ & Hr).
  exists pre, rest. repeat split; try assumption.
  rewrite <- with_newlines_split, El, Eb.
  rewrite with_newlines_app. cbn [with_newlines fold_right].
  fold (with_newlines (body ++ rest)). rewrite with_newlines_app.
  now rewrite !append_assoc.
Qed.

Lemma budget_span_contiguous_witness :
  locate_budget (Py.split_from Py.nl budget_document 0)
    = (true, "## Budget" ++ Py.nl ++ "Total: $1,200 for flights" ++ Py.nl)
  /\ exists pre rest,
       budget_document ++ Py.nl
         = with_newlines pre
           ++ ("## Budget" ++ Py.nl ++ "Total: $1,200 for flights" ++ Py.nl)
           ++ with_newlines rest
       /\ Forall (fun l => budget_heading l = false) pre
       /\ (rest = [] \/ exists next rest',
              rest = next :: rest' /\ Py.startswith "#" next = true).
Proof.
  assert (H : locate_budget (Py.split_from Py.nl budget_document 0)
              = (true, "## Budget" ++ Py.nl ++ "Total: $1,200 for flights" ++ Py.nl))
    by reflexivity.
  split; [exact H|].
  exact (budget_span_contiguous budget_document _ H).
Defined.

(** ** Destinations, further *)

Lemma split_ws_words (s : string) :
  Forall (fun w => w <> "" /\ Re.all_in non_space w = true) (Py.split_ws s).
Proof.
  induction s as [|c t IH]; [constructor|].
  cbn [Py.split_ws]. destruct (Py.is_space c) eqn:Hc; [exact IH|].
  assert (H1 : String c "" <> "" /\ Re.all_in non_space (String c "") = true).
  { split; [discriminate|]. cbn. unfold non_space. now rewrite Hc. }
  destruct t as [|d u]; [repeat constructor; apply H1|].
  destruct (Py.is_space d) eqn:Hd; [constructor; [apply H1 | exact IH]|].
  destruct (Py.split_ws (String d u)) as [|w ws]; [repeat constructor; apply H1|].
  inversion IH as [|w' ws' [Hw1 Hw2] Hws]; subst.
  constructor; [|assumption]. split; [discriminate|].
  cbn [Re.all_in]. unfold non_space at 1. now rewrite Hc, Hw2.
Qed.

Lemma capitalised_words_filter (words : list string) :
  Forall (fun w => w <> "") words ->
  capitalised_words words = Ok (filter capitalised words).
Proof.
  intros H. induction H as [|w words Hw _ IH]; [reflexivity|].
  cbn [capitalised_words filter]. destruct w as [|c t]; [congruence|].
  cbn [first_char bind]. rewrite IH. cbn [bind capitalised].
  now destruct (Py.is_upper c && Nat.ltb 3 (String.length (String c t))
                && negb (mem (Py.lower (String c t)) stoplist)).
Qed.

Lemma split_ws_capitalised (text : string) :
  capitalised_words (Py.split_ws text)
  = Ok (filter capitalised (Py.split_ws text)).
Proof.
  apply capitalised_words_filter.
  eapply Forall_impl; [|apply split_ws_words]. now intros w [H _].
Qed.

(** X9: [extract_destinations] returns for every text, the indexing
    [word[0]] never fails, and what it returns has no destination
    twice. *)
Theorem extract_destinations_returns (text : string) :
  exists destinations,
    extract_destinations text = Ok destinations /\ NoDup destinations.
Proof.
  unfold extract_destinations.
  destruct (primary_destinations text) as [|d found].
  - rewrite split_ws_capitalised. cbn [bind].
    eexists. split; [reflexivity|]. apply unique_step_NoDup. constructor.
  - cbn [bind]. eexists. split; [reflexivity|].
    apply unique_step_NoDup. constructor.
Qed.

(** X10: when no travel verb yields a destination, the destinations of
    an ASCII text are its words, as [split()] cuts them, that start with
    an upper-case letter, have more than three characters and are not in
    the stoplist once lowered. *)
Theorem fallback_destinations (text : string) :
  is_ascii text = true ->
  primary_destinations text = [] ->
  exists destinations,
    extract_destinations text = Ok destinations
    /\ forall d, In d destinations <->
                 In d (Py.split_ws text) /\ capitalised d = true.
Proof.
  intros _ H. unfold extract_destinations. rewrite H.
  rewrite split_ws_capitalised. cbn [bind].
  eexists. split; [reflexivity|]. intros d.
  rewrite unique_In. apply filter_In.
Qed.

Lemma fallback_destinations_witness :
  is_ascii "Weekend getaway to Miami in July for a couple" = true
  /\ primary_destinations "Weekend getaway to Miami in July for a couple" = []
  /\ exists destinations,
       extract_destinations "Weekend getaway to Miami in July for a couple"
         = Ok destinations
       /\ forall d, In d destinations <->
            In d (Py.split_ws "Weekend getaway to Miami in July for a couple")
            /\ capitalised d = true.
Proof.
  assert (Ha : is_ascii "Weekend getaway to Miami in July for a couple" = true)
    by reflexivity.
  assert (H : primary_destinations
                "Weekend getaway to Miami in July for a couple" = [])
    by reflexivity.
  split; [exact Ha|]. split; [exact H|].
  exact (fallback_destinations _ Ha H).
Defined.

Lemma all_in_lstrip (p : ascii -> bool) (s : string) :
  Re.all_in p s = true -> Re.all_in p (Py.lstrip s) = true.
Proof.
  induction s as [|c t IH]; intros H; [reflexivity|].
  cbn [Py.lstrip]. destruct (Py.is_space c); [|assumption].
  cbn [Re.all_in] in H. apply andb_true_iff in H. now apply IH.
Qed.

Lemma all_in_rstrip (p : ascii -> bool) (s : string) :
  Re.all_in p s = true -> Re.all_in p (Py.rstrip s) = true.
Proof.
  induction s as [|c t IH]; intros H; [reflexivity|].
  cbn [Re.all_in] in H. apply andb_true_iff in H. destruct H as [Hc Ht].
  cbn [Py.rstrip]. specialize (IH Ht).
  destruct (Py.rstrip t) as [|d u].
  - destruct (Py.is_space c); [reflexivity|]. cbn. now rewrite Hc.
  - cbn [Re.all_in] in *. now rewrite Hc, IH.
Qed.

Lemma all_in_sub_from (pat : Re.pattern) (p : ascii -> bool) :
  forall s k, Re.all_in p s = true ->
    Re.all_in p (Re.sub_from pat "" s k) = true.
Proof.
  induction s as [|c t IH]; intros k H; cbn [Re.sub_from].
  - now destruct (Re.match_at pat "").
  - cbn [Re.all_in] in H. apply andb_true_iff in H. destruct H as [Hc Ht].
    destruct k as [|k]; [|now apply IH].
    destruct (Re.match_at pat (String c t)) as [m|].
    + destruct (Re.group0 m); cbn [append Re.all_in].
      * rewrite Hc. now apply IH.
      * now apply IH.
    + cbn [Re.all_in]. rewrite Hc. now apply IH.
Qed.

Lemma sub_from_drop (pat : Re.pattern) (repl : string) :
  forall s k, Re.sub_from pat repl s k = Re.sub_from pat repl (Py.drop k s) 0.
Proof.
  induction s as [|c t IH]; intros k.
  - destruct k; reflexivity.
  - destruct k as [|k]; [reflexivity|].
    cbn [Re.sub_from Py.drop]. apply IH.
Qed.

Lemma drop_append (a b : string) : Py.drop (String.length a) (a ++ b) = b.
Proof. induction a as [|x a IH]; [reflexivity | exact IH]. Qed.

Lemma star_all {A : Type} (p : ascii -> bool) (k : string -> option A) :
  k "" <> None -> forall w, Re.all_in p w = true -> Re.star p w k <> None.
Proof.
  intros Hk. induction w as [|x w IH]; intros H; cbn [Re.star]; [assumption|].
  cbn [Re.all_in] in H. apply andb_true_iff in H. destruct H as [Hx Hw].
  rewrite Hx. specialize (IH Hw). now destruct (Re.star p w k).
Qed.

(** A match of [[,.!?]+$]: a run of punctuation up to the end of the
    text, or up to a last line feed. *)
Lemma trailing_match_sound (s : string) (m : Re.rmatch) :
  Re.match_at trailing_punctuation s = Some m ->
  s = Re.group0 m ++ Re.rest m
  /\ Re.group0 m <> ""
  /\ Re.all_in punctuation (Re.group0 m) = true
  /\ Re.at_end (Re.rest m) = true.
Proof.
  unfold Re.match_at.
  cbn [trailing_punctuation Re.pre Re.grp Re.post Re.run].
  destruct s as [|c t]; [discriminate|].
  destruct (punctuation c) eqn:Hc; [|discriminate].
  intros H. apply star_sound in H. destruct H as (w & s' & -> & Hw & H).
  destruct (Re.at_end s') eqn:He; [|discriminate].
  injection H as <-. cbn [Re.group0 Re.rest].
  change (String c (w ++ s')) with (String c w ++ s').
  rewrite consumed_append. repeat split; [discriminate | | assumption].
  cbn [Re.all_in]. now rewrite Hc, Hw.
Qed.

Lemma trailing_match_all (s : string) :
  s <> "" -> Re.all_in punctuation s = true ->
  Re.match_at trailing_punctuation s <> None.
Proof.
  intros Hne H. destruct s as [|c t]; [congruence|].
  cbn [Re.all_in] in H. apply andb_true_iff in H. destruct H as [Hc Ht].
  unfold Re.match_at.
  cbn [trailing_punctuation Re.pre Re.grp Re.post Re.run]. rewrite Hc.
  apply star_all; [discriminate | assumption].
Qed.

Lemma sub_at_end (r : string) :
  Re.at_end r = true -> Re.sub_from trailing_punctuation "" r 0 = r.
Proof.
  destruct r as [|c [|d u]]; try discriminate; [reflexivity|].
  cbn [Re.at_end]. intros H. apply Ascii.eqb_eq in H. now subst c.
Qed.

(** The substitution at a position where the pattern matches leaves
    what stands after the match. *)
Lemma sub_trailing_hit (c : ascii) (t : string) (m : Re.rmatch) :
  Re.match_at trailing_punctuation (String c t) = Some m ->
  Re.sub_from trailing_punctuation "" (String c t) 0 = Re.rest m
  /\ Re.at_end (Re.rest m) = true.
Proof.
  intros H. pose proof (trailing_match_sound _ _ H) as (Es & Hne & _ & He).
  split; [|assumption].
  cbn [Re.sub_from]. rewrite H.
  destruct (Re.group0 m) as [|x g]; [congruence|].
  cbn [append] in *. injection Es as _ Et.
  rewrite sub_from_drop, Et, drop_append. now apply sub_at_end.
Qed.

Lemma sub_trailing_empty (s : string) :
  Re.sub_from trailing_punctuation "" s 0 = "" ->
  Re.all_in punctuation s = true.
Proof.
  destruct s as [|c t]; [reflexivity|]. intros H.
  destruct (Re.match_at trailing_punctuation (String c t)) as [m|] eqn:E.
  - destruct (sub_trailing_hit c t m E) as (Hs & _).
    pose proof (trailing_match_sound _ _ E) as (Es & _ & Ha & _).
    rewrite Hs in H. rewrite Es, H, append_nil_r. exact Ha.
  - cbn [Re.sub_from] in H. rewrite E in H. discriminate.
Qed.

Lemma ends_with_cons (p : ascii -> bool) (c : ascii) (t : string) :
  t <> "" -> ends_with p (String c t) = ends_with p t.
Proof. destruct t; [congruence | reflexivity]. Qed.

Lemma sub_trailing_ends (s : string) :
  ends_with punctuation (Re.sub_from trailing_punctuation "" s 0) = false.
Proof.
  induction s as [|c t IH]; [reflexivity|].
  destruct (Re.match_at trailing_punctuation (String c t)) as [m|] eqn:E.
  - destruct (sub_trailing_hit c t m E) as (-> & He).
    destruct (Re.rest m) as [|x [|y u]]; try discriminate; [reflexivity|].
    cbn [Re.at_end] in He. apply Ascii.eqb_eq in He. now subst x.
  - cbn [Re.sub_from]. rewrite E.
    destruct (Re.sub_from trailing_punctuation "" t 0) as [|x u] eqn:Et.
    + cbn [ends_with]. destruct (punctuation c) eqn:Hc; [|reflexivity].
      exfalso. apply sub_trailing_empty in Et.
      apply (trailing_match_all (String c t)); [discriminate | | exact E].
      cbn [Re.all_in]. now rewrite Hc, Et.
    + rewrite ends_with_cons by discriminate. exact IH.
Qed.

Lemma verb_capture_chars (verb text g : string) :
  In g (Re.findall (verb_pattern verb) text) ->
  Re.all_in destination_char g = true.
Proof.
  intros H. apply findall_from_sound in H.
  destruct H as (_ & a & m & _ & Hm & <-).
  apply match_at_sound in Hm.
  destruct Hm as (w1 & w2 & w3 & _ & _ & L2 & _ & _ & ->).
  exact (proj2 L2).
Qed.

(** X11: a destination found after a travel verb in an ASCII text has at
    least three characters, all of them letters, white space or commas,
    and does not end in one of [,.!?]. *)
Theorem primary_destinations_shape (text : string) :
  is_ascii text = true ->
  Forall (fun d => 3 <= String.length d
                   /\ Re.all_in destination_char d = true
                   /\ ends_with punctuation d = false)
         (primary_destinations text).
Proof.
  intros _. apply Forall_forall. intros d H.
  apply in_flat_map in H. destruct H as (verb & _ & H).
  unfold verb_destinations in H. apply filter_In in H. destruct H as [H Hl].
  apply in_map_iff in H. destruct H as (g & <- & Hg).
  unfold long_enough in Hl. apply andb_true_iff in Hl. destruct Hl as [_ Hl].
  apply Nat.ltb_lt in Hl. repeat split.
  - lia.
  - unfold clean_destination, Re.sub, Py.strip.
    apply all_in_sub_from, all_in_rstrip, all_in_lstrip.
    exact (verb_capture_chars _ _ _ Hg).
  - apply sub_trailing_ends.
Qed.

Lemma primary_destinations_shape_witness :
  is_ascii "We want to visit Rome, then travel to Lake Como!" = true
  /\ Forall (fun d => 3 <= String.length d
                      /\ Re.all_in destination_char d = true
                      /\ ends_with punctuation d = false)
            (primary_destinations
               "We want to visit Rome, then travel to Lake Como!").
Proof.
  assert (Ha : is_ascii "We want to visit Rome, then travel to Lake Como!"
               = true) by reflexivity.
  split; [exact Ha|].
  exact (primary_destinations_shape _ Ha).
Defined.

(** ** Duration, further *)

Lemma duration_match_digit (unit : string) (s : Uni.text) (m : Ure.rmatch) :
  Ure.match_at (duration_pattern unit) s = Some m ->
  exists after,
    s = (Ure.group1 m ++ after)%list
    /\ Ure.group1 m <> [] /\ forallb Uni.is_decimal (Ure.group1 m) = true
    /\ forallb Uni.is_space (firstn 1 after) = true /\ after <> [].
Proof.
  intros H. apply duration_match_shape in H.
  destruct H as (sp & word & Es & _ & Hne & Hd & Hsp & Hs & _).
  exists (sp ++ word ++ Ure.rest m)%list.
  split; [assumption|]. split; [assumption|]. split; [assumption|].
  destruct sp as [|x sp]; [congruence|]. cbn [app firstn forallb].
  cbn [forallb] in Hs. apply andb_true_iff in Hs. rewrite (proj1 Hs).
  split; [reflexivity | discriminate].
Qed.

Lemma search_no_digit (unit : string) (text : Uni.text) :
  forallb (fun c => negb (Uni.is_decimal c)) text = true ->
  Ure.search (duration_pattern unit) text = None.
Proof.
  intros H. apply uni_search_none. intros before at_ ->.
  destruct (Ure.match_at (duration_pattern unit) at_) as [m|] eqn:E; [|reflexivity].
  exfalso. apply duration_match_digit in E.
  destruct E as (after & Ea & Hne & Hd & _).
  destruct (Ure.group1 m) as [|d t]; [congruence|].
  rewrite Ea, forallb_app in H. apply andb_true_iff in H. destruct H as [_ H].
  cbn [app forallb] in H, Hd.
  apply andb_true_iff in H. apply andb_true_iff in Hd.
  destruct H as [H _]. destruct Hd as [Hd _].
  rewrite Hd in H. discriminate.
Qed.

(** X12: a text without a decimal digit, of whatever script, has no
    duration: the result is [None], whatever words of duration it has. *)
Theorem extract_duration_without_digits (text : string) :
  forallb (fun c => negb (Uni.is_decimal c)) (Uni.decode text) = true ->
  extract_duration text = Ok None.
Proof.
  intros H. unfold extract_duration, duration_patterns. cbn [first_duration].
  now rewrite !search_no_digit.
Qed.

Lemma extract_duration_without_digits_witness :
  forallb (fun c => negb (Uni.is_decimal c))
          (Uni.decode "a few days, maybe two weeks") = true
  /\ extract_duration "a few days, maybe two weeks" = Ok None.
Proof.
  assert (H : forallb (fun c => negb (Uni.is_decimal c))
                      (Uni.decode "a few days, maybe two weeks") = true)
    by reflexivity.
  split; [exact H|].
  exact (extract_duration_without_digits _ H).
Defined.

Lemma duration_match_at (unit : string) (s : Uni.text) :
  Ure.match_at (duration_pattern unit) s =
    match s with
    | [] => None
    | c :: t =>
        if Uni.is_decimal c
        then Ure.star Uni.is_decimal t (fun s2 =>
               Ure.run (Ure.post (duration_pattern unit)) s2 (fun s3 =>
                 Some {| Ure.group0 := Ure.consumed s s3;
                         Ure.group1 := Ure.consumed s s2;
                         Ure.rest := s3 |}))
        else None
    end.
Proof. destruct s; reflexivity. Qed.

(** A match of a duration pattern goes on matching when a digit is put
    before it. *)
Lemma duration_match_extends (unit : string) (c : N) (at_ : Uni.text) :
  Uni.is_decimal c = true ->
  Ure.match_at (duration_pattern unit) at_ <> None ->
  Ure.match_at (duration_pattern unit) (c :: at_) <> None.
Proof.
  intros Hc. rewrite !duration_match_at. rewrite Hc.
  destruct at_ as [|d t]; [congruence|].
  destruct (Uni.is_decimal d) eqn:Hd; [|congruence].
  intros H. cbn [Ure.star]. rewrite Hd.
  match goal with
  | |- match Ure.star _ _ ?k with _ => _ end <> None =>
      destruct (Ure.star Uni.is_decimal t k) eqn:E; [discriminate|]
  end.
  exfalso. apply H.
  revert E. apply uni_star_none_ext. intros s.
  apply uni_run_none_ext. intros s'. split; discriminate.
Qed.

Lemma last_is_split (p : N -> bool) (s : Uni.text) :
  last_is p s = true -> exists b c, s = (b ++ [c])%list /\ p c = true.
Proof.
  unfold last_is. intros H. destruct (rev s) as [|c r] eqn:E; [discriminate|].
  exists (rev r), c. split; [|assumption].
  rewrite <- (rev_involutive s), E. reflexivity.
Qed.

(** X13: the number of a duration is read whole: where a duration pattern
    is found, its capture is a run of decimal digits with no decimal
    digit before it and white space after it, so of [12 nights] the
    capture is never [2]. *)
Theorem duration_number_whole (unit : string) (text : Uni.text)
    (m : Ure.rmatch) :
  Ure.search (duration_pattern unit) text = Some m ->
  exists before after,
    text = (before ++ Ure.group1 m ++ after)%list
    /\ Ure.group1 m <> [] /\ forallb Uni.is_decimal (Ure.group1 m) = true
    /\ last_is Uni.is_decimal before = false
    /\ forallb Uni.is_space (firstn 1 after) = true /\ after <> [].
Proof.
  intros H. apply uni_search_leftmost in H.
  destruct H as (before & at_ & -> & Hm & Hl).
  destruct (duration_match_digit _ _ _ Hm) as (after & Ea & Hne & Hd & Hs & Ha).
  exists before, after. rewrite <- Ea.
  split; [reflexivity|]. split; [assumption|]. split; [assumption|].
  split; [|split; assumption].
  destruct (last_is Uni.is_decimal before) eqn:He; [|reflexivity].
  exfalso. apply last_is_split in He. destruct He as (b & c & Eb & Hc).
  apply (duration_match_extends unit c at_ Hc); [congruence|].
  apply (Hl b [c]); [assumption | discriminate].
Qed.

Lemma duration_number_whole_witness :
  Ure.search (duration_pattern "day") (Uni.decode mixed_digits_days)
    = Some {| Ure.group0 := [1635; 53; 32; 100; 97; 121; 115]%N;
              Ure.group1 := [1635; 53]%N; Ure.rest := [] |}
  /\ exists before after,
       Uni.decode mixed_digits_days = (before ++ [1635; 53]%N ++ after)%list
       /\ [1635; 53]%N <> [] /\ forallb Uni.is_decimal [1635; 53]%N = true
       /\ last_is Uni.is_decimal before = false
       /\ forallb Uni.is_space (firstn 1 after) = true /\ after <> [].
Proof.
  assert (H : Ure.search (duration_pattern "day") (Uni.decode mixed_digits_days)
              = Some {| Ure.group0 := [1635; 53; 32; 100; 97; 121; 115]%N;
                        Ure.group1 := [1635; 53]%N; Ure.rest := [] |})
    by reflexivity.
  split; [exact H|].
  exact (duration_number_whole "day" (Uni.decode mixed_digits_days) _ H).
Defined.

Lemma value_nonneg (digits : Uni.text) : (0 <= Uni.value digits)%Z.
Proof.
  unfold Uni.value.
  assert (H : forall l acc, (0 <= acc)%Z ->
            (0 <= fold_left (fun a c => a * 10 + Uni.digit_of c) l acc)%Z).
  { induction l as [|c l IH]; intros acc Ha; [assumption|].
    cbn [fold_left]. apply IH. unfold Uni.digit_of.
    destruct (Uni.decimal_value c); lia. }
  apply H. lia.
Qed.

Lemma int_nonneg (digits : Uni.text) (n : Z) :
  Uni.int digits = Ok n -> (0 <= n)%Z.
Proof.
  unfold Uni.int. destruct (Nat.ltb 4300 (List.length digits)); [discriminate|].
  intros E. injection E as <-. apply value_nonneg.
Qed.

(** X14: a duration is never negative; a sign in the text is not part of
    the number. *)
Theorem extract_duration_nonnegative (text : string) (n : Z) :
  extract_duration text = Ok (Some n) -> (0 <= n)%Z.
Proof.
  unfold extract_duration, duration_patterns. cbn [first_duration].
  destruct (Ure.search (duration_pattern "day") (Uni.decode text)) as [m|] eqn:Hd.
  { rewrite (duration_of_search "day" (Uni.decode text) m)
      by (assumption || (cbn; tauto)).
    destruct (Uni.int (Ure.group1 m)) as [k|] eqn:Hk; [|discriminate].
    cbn. intros E. injection E as <-. exact (int_nonneg _ _ Hk). }
  destruct (Ure.search (duration_pattern "week") (Uni.decode text)) as [m|] eqn:Hw.
  { rewrite (duration_of_search "week" (Uni.decode text) m)
      by (assumption || (cbn; tauto)).
    destruct (Uni.int (Ure.group1 m)) as [k|] eqn:Hk; [|discriminate].
    cbn. intros E. injection E as <-. pose proof (int_nonneg _ _ Hk). lia. }
  destruct (Ure.search (duration_pattern "night") (Uni.decode text)) as [m|] eqn:Hg.
  { rewrite (duration_of_search "night" (Uni.decode text) m)
      by (assumption || (cbn; tauto)).
    destruct (Uni.int (Ure.group1 m)) as [k|] eqn:Hk; [|discriminate].
    cbn. intros E. injection E as <-. exact (int_nonneg _ _ Hk). }
  discriminate.
Qed.

Lemma extract_duration_nonnegative_witness :
  extract_duration "temperatures of -5 days ago" = Ok (Some 5%Z) /\ (0 <= 5)%Z.
Proof.
  assert (H : extract_duration "temperatures of -5 days ago" = Ok (Some 5%Z))
    by reflexivity.
  split; [exact H|].
  exact (extract_duration_nonnegative _ _ H).
Defined.

(** ** Currency formatting *)

Lemma all_in_impl (p q : ascii -> bool) :
  (forall c, p c = true -> q c = true) ->
  forall s, Re.all_in p s = true -> Re.all_in q s = true.
Proof.
  intros Hpq. induction s as [|c t IH]; intros H; [reflexivity|].
  cbn [Re.all_in] in *. apply andb_true_iff in H. destruct H as [Hc Ht].
  now rewrite (Hpq c Hc), IH.
Qed.

Lemma digit_char_digit (d : Z) :
  (0 <= d < 10)%Z -> Py.is_digit (PyFloat.digit_char d) = true.
Proof.
  intros H. unfold PyFloat.digit_char.
  assert (Hk : Z.to_nat d < 10) by lia.
  destruct (Z.to_nat d) as [|k]; [reflexivity|].
  do 9 (destruct k as [|k]; [reflexivity|]). lia.
Qed.

Lemma digits_from_chars (fuel : nat) :
  forall n acc, (0 <= n)%Z -> Re.all_in Py.is_digit acc = true ->
    Re.all_in Py.is_digit (PyFloat.digits_from fuel n acc) = true.
Proof.
  induction fuel as [|f IH]; intros n acc Hn Ha; [assumption|].
  cbn [PyFloat.digits_from].
  assert (Hd : Re.all_in Py.is_digit
                 (String (PyFloat.digit_char (n mod 10)) acc) = true).
  { cbn [Re.all_in]. rewrite digit_char_digit, Ha; [reflexivity|].
    apply Z.mod_pos_bound. lia. }
  destruct (n / 10 =? 0)%Z; [assumption|].
  apply IH; [|assumption]. apply Z.div_pos; lia.
Qed.

Lemma digits_chars (n : Z) :
  (0 <= n)%Z -> Re.all_in Py.is_digit (PyFloat.digits n) = true.
Proof. intros H. now apply digits_from_chars. Qed.

Lemma group_thousands_chars (p : ascii -> bool) :
  p ","%char = true ->
  forall s, Re.all_in p s = true ->
    Re.all_in p (PyFloat.group_thousands s) = true.
Proof.
  intros Hp. induction s as [|c t IH]; intros H; [reflexivity|].
  cbn [Re.all_in] in H. apply andb_true_iff in H. destruct H as [Hc Ht].
  cbn [PyFloat.group_thousands].
  destruct (Nat.eqb (String.length t mod 3) 0 && negb (Nat.eqb (String.length t) 0));
    cbn [append Re.all_in]; rewrite Hc, ?Hp, IH by assumption; reflexivity.
Qed.

Lemma fraction_two (v : Z) :
  (0 <= v < 100)%Z ->
  exists d1 d2,
    PyFloat.fraction v 2 = "." ++ String d1 (String d2 "")
    /\ Py.is_digit d1 = true /\ Py.is_digit d2 = true.
Proof.
  intros H.
  pose (check := fun k : nat =>
    match PyFloat.fraction (Z.of_nat k) 2 with
    | String p (String d1 (String d2 EmptyString)) =>
        Ascii.eqb p "." && Py.is_digit d1 && Py.is_digit d2
    | _ => false
    end).
  assert (Hall : forallb check (seq 0 100) = true) by (vm_compute; reflexivity).
  rewrite forallb_forall in Hall.
  specialize (Hall (Z.to_nat v)).
  assert (Hin : In (Z.to_nat v) (seq 0 100)) by (apply in_seq; lia).
  specialize (Hall Hin). unfold check in Hall.
  rewrite Z2Nat.id in Hall by lia.
  destruct (PyFloat.fraction v 2) as [|p [|d1 [|d2 [|x r]]]]; try discriminate.
  apply andb_true_iff in Hall. destruct Hall as [Hall H2].
  apply andb_true_iff in Hall. destruct Hall as [Hp H1].
  apply Ascii.eqb_eq in Hp. subst p. now exists d1, d2.
Qed.

Lemma round_half_even_nonneg (num den : Z) :
  (0 <= num)%Z -> (0 < den)%Z -> (0 <= PyFloat.round_half_even num den)%Z.
Proof.
  intros Hn Hd. unfold PyFloat.round_half_even.
  assert (0 <= num / den)%Z by (apply Z.div_pos; lia).
  destruct (2 * (num mod den) ?= den)%Z; [destruct (Z.even _) | |]; lia.
Qed.

Lemma scaled_nonneg (m : positive) (e : Z) (d : nat) :
  (0 <= PyFloat.scaled m e d)%Z.
Proof.
  unfold PyFloat.scaled.
  assert (Hp : (0 < 10 ^ Z.of_nat d)%Z) by (apply Z.pow_pos_nonneg; lia).
  destruct (0 <=? e)%Z eqn:He.
  - apply Z.leb_le in He.
    assert (0 < 2 ^ e)%Z by (apply Z.pow_pos_nonneg; lia). nia.
  - apply Z.leb_gt in He. apply round_half_even_nonneg; [nia|].
    apply Z.pow_pos_nonneg; lia.
Qed.

Lemma whole_part_chars (s : bool) (n : Z) :
  (0 <= n)%Z ->
  Re.all_in not_point
    (PyFloat.sign s ++ PyFloat.group_thousands (PyFloat.digits n)) = true.
Proof.
  intros Hn. rewrite all_in_append. apply andb_true_iff. split.
  - now destruct s.
  - apply group_thousands_chars; [reflexivity|].
    apply (all_in_impl Py.is_digit); [|now apply digits_chars].
    intros c Hc. unfold not_point.
    destruct (Ascii.eqb_spec c ".") as [-> | _]; [discriminate | reflexivity].
Qed.

(** The two shapes of a formatted finite number. *)
Lemma fixed_shape (s : bool) (n : Z) :
  (0 <= n)%Z ->
  Re.all_in not_point (PyFloat.fixed s n 0) = true
  /\ exists body d1 d2,
       PyFloat.fixed s n 2 = body ++ "." ++ String d1 (String d2 "")
       /\ Re.all_in not_point body = true
       /\ Py.is_digit d1 = true /\ Py.is_digit d2 = true.
Proof.
  intros Hn. unfold PyFloat.fixed. split.
  - cbn [PyFloat.fraction]. rewrite append_nil_r.
    apply whole_part_chars. apply Z.div_pos; [assumption | reflexivity].
  - destruct (fraction_two (n mod 10 ^ Z.of_nat 2)) as (d1 & d2 & E & H1 & H2).
    { apply Z.mod_pos_bound. reflexivity. }
    exists (PyFloat.sign s
              ++ PyFloat.group_thousands (PyFloat.digits (n / 10 ^ Z.of_nat 2))),
      d1, d2.
    rewrite E. repeat split; try assumption.
    + now rewrite append_assoc.
    + apply whole_part_chars. apply Z.div_pos; [assumption | reflexivity].
Qed.

Lemma format_shape (x : PyFloat.float) :
  is_finite x = true ->
  Re.all_in not_point (PyFloat.format 0 x) = true
  /\ exists body d1 d2,
       PyFloat.format 2 x = body ++ "." ++ String d1 (String d2 "")
       /\ Re.all_in not_point body = true
       /\ Py.is_digit d1 = true /\ Py.is_digit d2 = true.
Proof.
  destruct x as [s | s | | s m e]; try discriminate; intros _;
    cbn [PyFloat.format]; split.
  - apply (proj1 (fixed_shape s 0 (Z.le_refl 0))).
  - apply (proj2 (fixed_shape s 0 (Z.le_refl 0))).
  - apply (proj1 (fixed_shape s _ (scaled_nonneg m e 0))).
  - apply (proj2 (fixed_shape s _ (scaled_nonneg m e 2))).
Qed.

(** X15: a converted amount that is finite is shown with the symbol of
    the currency and, for JPY and INR, without a decimal point, for every
    other currency with a decimal point and exactly two digits after
    it. *)
Theorem convert_currency_decimals (amount_usd : PyFloat.float) (c : currency) :
  is_finite (converted_value amount_usd c) = true ->
  exists body,
    convert_currency amount_usd c = currency_symbols c ++ body
    /\ if whole_units c then Py.contains "." body = false
       else exists whole d1 d2,
              body = whole ++ "." ++ String d1 (String d2 "")
              /\ Py.contains "." whole = false
              /\ Py.is_digit d1 = true /\ Py.is_digit d2 = true.
Proof.
  intros H. apply format_shape in H. destruct H as (H0 & whole & d1 & d2 & E & Hw & H1 & H2).
  assert (Hc : forall u, Re.all_in not_point u = true -> Py.contains "." u = false)
    by (intros u; now apply contains_char_absent).
  unfold convert_currency, converted_value, whole_units in *.
  destruct (currency_eqb c USD) eqn:Hu.
  - exists (PyFloat.format 2 amount_usd). split; [reflexivity|].
    destruct c; try discriminate. cbn [currency_eqb orb].
    exists whole, d1, d2. repeat split; auto.
  - destruct (currency_eqb c JPY || currency_eqb c INR).
    + eexists. split; [reflexivity|]. now apply Hc.
    + eexists. split; [reflexivity|]. exists whole, d1, d2. repeat split; auto.
Qed.

Lemma convert_currency_decimals_witness :
  is_finite (converted_value (PyFloat.of_decimal 1000 1) JPY) = true
  /\ exists body,
       convert_currency (PyFloat.of_decimal 1000 1) JPY
         = currency_symbols JPY ++ body
       /\ Py.contains "." body = false.
Proof.
  assert (H : is_finite (converted_value (PyFloat.of_decimal 1000 1) JPY) = true)
    by reflexivity.
  split; [exact H|].
  exact (convert_currency_decimals (PyFloat.of_decimal 1000 1) JPY H).
Defined.

(** ** The itinerary column *)






Lemma generate_budget_section_empty (itinerary : string) (c : currency) :
  existsb budget_heading (Py.split_from Py.nl itinerary 0) = false ->
  generate_budget_section itinerary c = "".
Proof.
  intros H. unfold generate_budget_section.
  destruct (locate_budget_cases (Py.split_from Py.nl itinerary 0))
    as [[_ E] | (pre & h & tail & El & _ & Hh & _)].
  - now rewrite E.
  - rewrite El, existsb_app in H. cbn [existsb] in H. rewrite Hh in H.
    now rewrite orb_true_r in H.
Qed.

(** X16: the itinerary is shown whole and once, with no amount
    converted, when the currency is USD, when the budget box is not
    ticked, and when no line of the itinerary is a budget heading. *)
Theorem show_itinerary_whole (itinerary : string) (c : currency)
    (include_budget : bool) :
  c = USD \/ include_budget = false
  \/ existsb budget_heading (Py.split_from Py.nl itinerary 0) = false ->
  show_itinerary itinerary c include_budget = [itinerary].
Proof.
  unfold show_itinerary. intros [-> | [-> | H]].
  - reflexivity.
  - now rewrite andb_false_r.
  - rewrite (generate_budget_section_empty _ _ H).
    now destruct (negb (currency_eqb c USD) && include_budget).
Qed.

Lemma show_itinerary_whole_witness :
  (EUR = USD \/ true = false
   \/ existsb budget_heading
        (Py.split_from Py.nl "# Rome in three days" 0) = false)
  /\ show_itinerary "# Rome in three days" EUR true = ["# Rome in three days"].
Proof.
  assert (H : EUR = USD \/ true = false
              \/ existsb budget_heading
                   (Py.split_from Py.nl "# Rome in three days" 0) = false)
    by (right; right; reflexivity).
  split; [exact H|].
  exact (show_itinerary_whole "# Rome in three days" EUR true H).
Defined.



(** ** The weather request *)

Lemma hex_char_unreserved (n : nat) : n < 16 -> unreserved (hex_char n) = true.
Proof.
  intros H. do 16 (destruct n as [|n]; [reflexivity|]). lia.
Qed.

Lemma code_bound (c : ascii) : Py.code c < 256.
Proof. apply nat_ascii_bounded. Qed.

Lemma quote_chars (s : string) : Re.all_in quoted_char (quote s) = true.
Proof.
  induction s as [|c t IH]; [reflexivity|].
  cbn [quote]. destruct (unreserved c) eqn:Hc; cbn [Re.all_in].
  - unfold quoted_char at 1. now rewrite Hc, IH.
  - pose proof (code_bound c) as Hb.
    unfold quoted_char at 2 3.
    rewrite !hex_char_unreserved, IH; [reflexivity | |].
    + apply Nat.mod_upper_bound. lia.
    + apply Nat.Div0.div_lt_upper_bound. lia.
Qed.

Lemma contains_char_append (c : ascii) (a b : string) :
  Py.contains (String c "") (a ++ b)
  = Py.contains (String c "") a || Py.contains (String c "") b.
Proof.
  induction a as [|x a IH].
  - cbn [append]. destruct b; reflexivity.
  - cbn [append]. rewrite !contains_cons, IH. cbn [Py.startswith].
    now destruct (Ascii.eqb c x).
Qed.

Lemma quote_no_separator (s : string) (c : ascii) :
  quoted_char c = false -> Py.contains (String c "") (quote s) = false.
Proof.
  intros Hc. apply (contains_char_absent quoted_char); [assumption|].
  apply quote_chars.
Qed.

(** X18: the location cannot add to or change the parameters of the
    request: encoded, it consists of letters, digits, [_.-~/] and [%XX]
    escapes only, and when the API key has no [&] the URL, cut at [&], is
    the address with [q], then [appid], then [units]. *)
Theorem weather_url_parameters (location : string) (date_str : option string)
    (api_key : string) :
  Py.contains "&" api_key = false ->
  Re.all_in quoted_char (quote location) = true
  /\ exists address,
       address = (if wants_current date_str
                  then "https://api.openweathermap.org/data/2.5/weather?q="
                  else "https://api.openweathermap.org/data/2.5/forecast?q=")
       /\ split "&" (weather_url location date_str api_key)
          = Ok [address ++ quote location; "appid=" ++ api_key; "units=metric"].
Proof.
  intros Hk. split; [apply quote_chars|].
  eexists. split; [reflexivity|].
  unfold weather_url, split.
  assert (Hq : Py.contains "&" (quote location) = false)
    by (now apply quote_no_separator).
  assert (Ha : Py.contains "&" ("appid=" ++ api_key) = false)
    by (rewrite contains_char_append, Hk; reflexivity).
  f_equal.
  destruct (wants_current date_str).
  - set (address := "https://api.openweathermap.org/data/2.5/weather?q=").
    change (address ++ quote location ++ "&appid=" ++ api_key ++ "&units=metric")
      with (address ++ quote location
            ++ String "&" (("appid=" ++ api_key) ++ String "&" "units=metric")).
    rewrite <- append_assoc.
    rewrite split_char_append
      by (rewrite contains_char_append, Hq; reflexivity).
    rewrite split_char_append by assumption.
    reflexivity.
  - set (address := "https://api.openweathermap.org/data/2.5/forecast?q=").
    change (address ++ quote location ++ "&appid=" ++ api_key ++ "&units=metric")
      with (address ++ quote location
            ++ String "&" (("appid=" ++ api_key) ++ String "&" "units=metric")).
    rewrite <- append_assoc.
    rewrite split_char_append
      by (rewrite contains_char_append, Hq; reflexivity).
    rewrite split_char_append by assumption.
    reflexivity.
Qed.

Lemma weather_url_parameters_witness :
  Py.contains "&" "k3y" = false
  /\ split "&" (weather_url "Rome&appid=x #1" (Some "Current") "k3y")
     = Ok ["https://api.openweathermap.org/data/2.5/weather?q=Rome%26appid%3Dx%20%231";
           "appid=k3y"; "units=metric"].
Proof.
  assert (H : Py.contains "&" "k3y" = false) by reflexivity.
  split; [exact H|].
  destruct (weather_url_parameters "Rome&appid=x #1" (Some "Current") "k3y" H)
    as (_ & address & -> & E).
  exact E.
Defined.

(** ** Dates *)

Lemma run_alt_sound {A : Type} (r : regex_alt) :
  forall (k : string -> option A) s x, run_alt r s k = Some x ->
    exists w s', s = w ++ s' /\ lang_alt r w /\ k s' = Some x.
Proof.
  induction r as [r0|a IHa b IHb|a IHa b IHb|a IHa]; intros k s x H;
    cbn [run_alt] in H.
  - now apply run_sound in H.
  - apply IHa in H. destruct H as (w1 & s1 & -> & L1 & H).
    apply IHb in H. destruct H as (w2 & s2 & -> & L2 & H).
    exists (w1 ++ w2), s2. rewrite append_assoc. repeat split; [|assumption].
    now exists w1, w2.
  - destruct (run_alt a s k) as [y|] eqn:Ha.
    + injection H as ->. apply IHa in Ha.
      destruct Ha as (w & s' & -> & L & Hk).
      exists w, s'. repeat split; [now left | assumption].
    + apply IHb in H. destruct H as (w & s' & -> & L & Hk).
      exists w, s'. repeat split; [now right | assumption].
  - destruct (run_alt a s k) as [y|] eqn:Ha.
    + injection H as ->. apply IHa in Ha.
      destruct Ha as (w & s' & -> & L & Hk).
      exists w, s'. repeat split; [now right | assumption].
    + exists "", s. repeat split; [now left | assumption].
Qed.

Lemma match_alt_sound (r : regex_alt) (s g : string) :
  match_alt r s = Some g -> exists rest, s = g ++ rest /\ lang_alt r g.
Proof.
  unfold match_alt. intros H. apply run_alt_sound in H.
  destruct H as (w & s' & -> & L & H). injection H as <-.
  rewrite consumed_append. now exists s'.
Qed.

Lemma findall_alt_sound (r : regex_alt) :
  forall s k g, In g (findall_alt_from r s k) ->
    exists before after, s = before ++ g ++ after /\ lang_alt r g.
Proof.
  induction s as [|c t IH]; intros k g H; cbn [findall_alt_from] in H.
  - destruct (match_alt r "") as [g'|] eqn:E; [|contradiction].
    destruct H as [<- | []]. apply match_alt_sound in E.
    destruct E as (rest & E & L). now exists "", rest.
  - assert (Ht : forall k', In g (findall_alt_from r t k') ->
              exists before after, String c t = before ++ g ++ after
                                   /\ lang_alt r g).
    { intros k' Hk. destruct (IH _ _ Hk) as (b & a & -> & L).
      now exists (String c b), a. }
    destruct k as [|k]; [|now apply (Ht k)].
    destruct (match_alt r (String c t)) as [g'|] eqn:E; [|now apply (Ht 0)].
    destruct H as [<- | H]; [|now apply (Ht _ H)].
    apply match_alt_sound in E. destruct E as (rest & E & L).
    now exists "", rest.
Qed.

Lemma lang_digit (w : string) :
  Re.lang digit w -> exists d, w = String d "" /\ Py.is_digit d = true.
Proof. intros H. exact H. Qed.

Lemma lang_year (y : string) : Re.lang year y -> four_digits y.
Proof.
  intros (u1 & v1 & -> & L1 & u2 & v2 & -> & L2 & u3 & v3 & -> & L3 & L4).
  apply lang_digit in L1, L2, L3, L4.
  destruct L1 as (d1 & -> & H1), L2 as (d2 & -> & H2),
           L3 as (d3 & -> & H3), L4 as (d4 & -> & H4).
  split; [reflexivity|]. cbn. now rewrite H1, H2, H3, H4.
Qed.

(** The place of the year in a match of each pattern. *)
Lemma date_pattern_year (pattern : regex_alt) (d : string) :
  In pattern date_patterns -> lang_alt pattern d ->
  exists y rest, four_digits y /\ (d = rest ++ y \/ d = y ++ rest).
Proof.
  intros Hp L. cbn [date_patterns In] in Hp.
  destruct Hp as [<- | [<- | [<- | [<- | []]]]];
    destruct L as (u & v & -> & Lu & Lv).
  - exists v, u. split; [now apply lang_year | now left].
  - exists v, u. split; [now apply lang_year | now left].
  - exists v, u. split; [now apply lang_year | now left].
  - exists u, v. split; [now apply lang_year | now right].
Qed.

Lemma extract_dates_sound (text d : string) :
  In d (extract_dates text) ->
  exists before after,
    text = before ++ d ++ after
    /\ exists y rest, four_digits y /\ (d = rest ++ y \/ d = y ++ rest).
Proof.
  intros H. unfold extract_dates in H. apply in_flat_map in H.
  destruct H as (pattern & Hp & H). apply findall_alt_sound in H.
  destruct H as (before & after & E & L).
  exists before, after. split; [assumption|].
  now apply (date_pattern_year pattern).
Qed.

(** X19: every date that [extract_dates] returns for an ASCII text
    stands in the text as it is returned, and has a year of four digits at
    its end, or at its start for the form with hyphens. *)
Theorem extract_dates_pieces (text d : string) :
  is_ascii text = true ->
  In d (extract_dates text) ->
  exists before after,
    text = before ++ d ++ after
    /\ exists y rest, four_digits y /\ (d = rest ++ y \/ d = y ++ rest).
Proof. intros _. apply extract_dates_sound. Qed.

Lemma extract_dates_pieces_witness :
  is_ascii "Arrive March 15th, 2025 at noon" = true
  /\ In "March 15th, 2025" (extract_dates "Arrive March 15th, 2025 at noon")
  /\ exists before after,
       "Arrive March 15th, 2025 at noon" = before ++ "March 15th, 2025" ++ after
       /\ exists y rest,
            four_digits y
            /\ ("March 15th, 2025" = rest ++ y \/ "March 15th, 2025" = y ++ rest).
Proof.
  assert (H : In "March 15th, 2025"
                (extract_dates "Arrive March 15th, 2025 at noon"))
    by (vm_compute; now left).
  assert (Ha : is_ascii "Arrive March 15th, 2025 at noon" = true)
    by reflexivity.
  split; [exact Ha|]. split; [exact H|].
  exact (extract_dates_pieces _ _ Ha H).
Defined.

Lemma four_digits_has_digit (y : string) :
  four_digits y -> exists c t, y = String c t /\ Py.is_digit c = true.
Proof.
  intros [Hl Hd]. destruct y as [|c t]; [discriminate|].
  cbn [Re.all_in] in Hd. apply andb_true_iff in Hd. now exists c, t.
Qed.

Lemma no_digit_piece (a y b : string) :
  four_digits y ->
  Re.all_in (fun x => negb (Py.is_digit x)) (a ++ y ++ b) = true -> False.
Proof.
  intros Hy H. destruct (four_digits_has_digit y Hy) as (c & t & -> & Hc).
  rewrite !all_in_append in H. apply andb_true_iff in H. destruct H as [_ H].
  apply andb_true_iff in H. destruct H as [H _].
  cbn [Re.all_in] in H. rewrite Hc in H. discriminate.
Qed.

(** X20: an ASCII text without a digit has no dates, whatever month
    names it has. *)
Theorem extract_dates_without_digits (text : string) :
  is_ascii text = true ->
  Re.all_in (fun x => negb (Py.is_digit x)) text = true ->
  extract_dates text = [].
Proof.
  intros _ H. destruct (extract_dates text) as [|d l] eqn:E; [reflexivity|].
  exfalso.
  destruct (extract_dates_sound text d) as (before & after & Et & y & rest & Hy & Hd).
  { rewrite E. now left. }
  rewrite Et in H. destruct Hd as [-> | ->].
  - rewrite append_assoc, <- (append_assoc before rest) in H.
    exact (no_digit_piece _ _ _ Hy H).
  - rewrite append_assoc in H. exact (no_digit_piece _ _ _ Hy H).
Qed.

Lemma extract_dates_without_digits_witness :
  is_ascii "in early March, or May" = true
  /\ Re.all_in (fun x => negb (Py.is_digit x)) "in early March, or May" = true
  /\ extract_dates "in early March, or May" = [].
Proof.
  assert (Ha : is_ascii "in early March, or May" = true) by reflexivity.
  assert (H : Re.all_in (fun x => negb (Py.is_digit x))
                "in early March, or May" = true) by reflexivity.
  split; [exact Ha|]. split; [exact H|].
  exact (extract_dates_without_digits _ Ha H).
Defined.

(** ** The section in another currency *)

(** X21: for every currency the budget section of an ASCII itinerary is
    the one returned for USD with text put in: nothing of the section is
    taken out or
    altered, and the two are equal exactly when the currency is USD or
    the section returned for USD has no dollar sign with a digit after
    it. *)
Theorem budget_section_adds_to_usd (itinerary : string) (c : currency) :
  is_ascii itinerary = true ->
  embeds (generate_budget_section itinerary USD)
         (generate_budget_section itinerary c)
  /\ (generate_budget_section itinerary c
        = generate_budget_section itinerary USD
      <-> c = USD
          \/ has_amount (generate_budget_section itinerary USD) = false).
Proof.
  intros _. unfold generate_budget_section.
  destruct (locate_budget_cases (Py.split_from Py.nl itinerary 0))
    as [[_ E] | (pre & h & tail & _ & _ & _ & E)]; rewrite E.
  - cbn [andb]. split; [apply embeds_refl|].
    split; [intros _; now right | reflexivity].
  - set (section := h ++ Py.nl ++ section_body tail).
    cbn [currency_eqb negb andb].
    destruct (currency_eqb c USD) eqn:Hc; cbn [negb].
    + split; [apply embeds_refl|].
      split; [intros _; left; now destruct c | reflexivity].
    + split; [unfold enhanced_budget; apply annotate_amounts_embeds|].
      split.
      * intros Eq. right.
        destruct (has_amount (remove_asterisks section)) eqn:Ha; [|reflexivity].
        apply findall_has_amount in Ha.
        destruct (enhanced_budget_grows _ c Ha) as (Hl & _).
        rewrite Eq in Hl. lia.
      * intros [-> | Ha]; [discriminate|]. unfold enhanced_budget.
        destruct (Re.findall dollar_pattern (remove_asterisks section))
          as [|g gs] eqn:Ef; [reflexivity|].
        assert (Hn : Re.findall dollar_pattern (remove_asterisks section) <> [])
          by (rewrite Ef; discriminate).
        apply findall_has_amount in Hn. congruence.
Qed.

Lemma budget_section_adds_to_usd_witness :
  is_ascii budget_document = true
  /\ embeds (generate_budget_section budget_document USD)
            (generate_budget_section budget_document EUR)
  /\ (generate_budget_section budget_document EUR
        = generate_budget_section budget_document USD
      <-> EUR = USD
          \/ has_amount (generate_budget_section budget_document USD) = false).
Proof.
  assert (Ha : is_ascii budget_document = true) by reflexivity.
  split; [exact Ha|].
  exact (budget_section_adds_to_usd budget_document EUR Ha).
Defined.
